(** * The OpenAI content generator of gemini-cli: a shallow embedding

    Source: packages/core/src/core/openAIContentGenerator.ts.

    The file translates the generic content model of @google/genai
    (Content, Part) into chat-completion messages, and decodes the
    backend's single-shot and streamed replies.  The embedding follows the
    TypeScript text: thrown exceptions are an error monad, the async
    generator is a fold over the chunks the body reader delivers, and the
    platform's builtins the code calls (String.prototype.split, trim,
    startsWith, substring, TextDecoder, JSON.parse, property reads on the
    parsed values) are modelled after ECMA-262, ECMA-404 and the WHATWG
    Encoding Standard. *)

From Stdlib Require Import List NArith ZArith Bool Lia.
From Stdlib Require Import Strings.String Strings.Byte.
Import ListNotations.

Set Warnings "-register-all".

Local Open Scope N_scope.
Local Open Scope list_scope.

(** ** JavaScript strings

    A JavaScript string is a sequence of UTF-16 code units. *)

Definition jsstring := list N.

(** An ASCII literal of the source text, as a JavaScript string. *)
Definition js (s : string) : jsstring :=
  List.map Byte.to_N (list_byte_of_string s).

(** The same, with every apostrophe of the literal standing for a double
    quote: the way the JSON texts below are written. *)
Definition jsq (s : string) : jsstring :=
  List.map (fun c => if c =? 0x27 then 0x22 else c) (js s).

Fixpoint jsstring_eqb (a b : jsstring) : bool :=
  match a, b with
  | [], [] => true
  | x :: a', y :: b' => (x =? y) && jsstring_eqb a' b'
  | _, _ => false
  end.

(** [s.startsWith(p)] *)
Fixpoint startsWith (s p : jsstring) : bool :=
  match p, s with
  | [], _ => true
  | _ :: _, [] => false
  | x :: p', y :: s' => (x =? y) && startsWith s' p'
  end.

(** [s.substring(n)] with one argument, [n] a non-negative integer. *)
Definition substring (s : jsstring) (n : nat) : jsstring := skipn n s.

(** WhiteSpace and LineTerminator of ECMA-262, the code units
    [String.prototype.trim] strips. *)
Definition isWhiteSpace (c : N) : bool :=
  (c =? 0x09) || (c =? 0x0A) || (c =? 0x0B) || (c =? 0x0C) || (c =? 0x0D)
  || (c =? 0x20) || (c =? 0xA0) || (c =? 0x1680)
  || ((0x2000 <=? c) && (c <=? 0x200A))
  || (c =? 0x2028) || (c =? 0x2029) || (c =? 0x202F) || (c =? 0x205F)
  || (c =? 0x3000) || (c =? 0xFEFF).

Fixpoint trimStart (s : jsstring) : jsstring :=
  match s with
  | c :: s' => if isWhiteSpace c then trimStart s' else s
  | [] => []
  end.

Definition trimEnd (s : jsstring) : jsstring := rev (trimStart (rev s)).

(** [s.trim()] *)
Definition trim (s : jsstring) : jsstring := trimEnd (trimStart s).

(** [s.split(sep)] for a separator of one code unit: the pieces between
    the separators, always at least one piece. *)
Fixpoint split (sep : N) (s : jsstring) : list jsstring :=
  match s with
  | [] => [[]]
  | c :: s' =>
      if c =? sep then [] :: split sep s'
      else match split sep s' with
           | piece :: pieces => (c :: piece) :: pieces
           | [] => [[c]]
           end
  end.

(** [a.pop()]: the array without its last element, and that element
    ([undefined], here [None], on an empty array). *)
Fixpoint pop {A : Type} (a : list A) : list A * option A :=
  match a with
  | [] => ([], None)
  | [x] => ([], Some x)
  | x :: a' => let (front, last) := pop a' in (x :: front, last)
  end.

(** Decimal digits of a non-negative integer, as a template literal
    renders a number such as [response.status]. *)
Fixpoint digits_fuel (fuel : nat) (n : N) (acc : jsstring) : jsstring :=
  match fuel with
  | O => acc
  | S fuel' =>
      let acc' := (0x30 + n mod 10) :: acc in
      if n / 10 =? 0 then acc' else digits_fuel fuel' (n / 10) acc'
  end.

Definition numberToString (n : N) : jsstring :=
  digits_fuel (S (N.to_nat (N.log2 n))) n [].

(** [needle] occurs in [hay] as a contiguous run of code units. *)
Definition includes (hay needle : jsstring) : Prop :=
  exists before after, hay = before ++ needle ++ after.

(** ** Exceptions

    The values the code throws or the runtime raises on its behalf. *)

Inductive JsError : Type :=
| Error (message : jsstring)
    (** [throw new Error(message)], written in the source *)
| TypeError (property : jsstring)
    (** raised by the runtime when [property] is read off [undefined] or
        [null] *)
| SyntaxError.
    (** raised by [JSON.parse] *)

Inductive completion (A : Type) : Type :=
| Normal (value : A)
| Throw (e : JsError).

Arguments Normal {A} value.
Arguments Throw {A} e.

Definition bind {A B : Type} (c : completion A) (k : A -> completion B)
  : completion B :=
  match c with
  | Normal a => k a
  | Throw e => Throw e
  end.

Notation "x <- c ;; k" := (bind c (fun x => k))
  (at level 61, c at next level, right associativity).

(** [a.map(f)] for an [f] that may throw: elements are visited left to
    right and the first exception ends the call. *)
Fixpoint mapM {A B : Type} (f : A -> completion B) (a : list A)
  : completion (list B) :=
  match a with
  | [] => Normal []
  | x :: a' => y <- f x ;; ys <- mapM f a' ;; Normal (y :: ys)
  end.

(** ** The content model of the caller (from @google/genai)

    A [Part] is an object with optional fields; the code only asks whether
    the key [text] is there. *)

Record Part : Type := {
  text : option jsstring;
  inlineData : option jsstring;
  functionCall : option jsstring;
  functionResponse : option jsstring
}.

Record Content : Type := {
  role : option jsstring;
  parts : option (list Part)
}.

Definition textPart (t : jsstring) : Part :=
  {| text := Some t; inlineData := None; functionCall := None;
     functionResponse := None |}.

(** ** The backend's message types (declared locally in the source) *)

Inductive OpenAIRole : Type := user | assistant | system | tool.

Record OpenAIChatCompletionContentPart : Type := {
  type : jsstring;
  part_text : jsstring
}.

Inductive MessageContent : Type :=
| ContentString (s : jsstring)
| ContentParts (ps : list OpenAIChatCompletionContentPart).

Record OpenAIChatCompletionMessageParam : Type := {
  msg_role : OpenAIRole;
  content : MessageContent
}.

(** ** The outbound translation *)

(** A template literal renders an absent role as [undefined]. *)
Definition roleToString (r : option jsstring) : jsstring :=
  match r with
  | Some s => s
  | None => js "undefined"
  end.

Definition toOpenAIRole (r : option jsstring) : completion OpenAIRole :=
  match r with
  | Some s =>
      if jsstring_eqb s (js "user") then Normal user
      else if jsstring_eqb s (js "model") then Normal assistant
      else Throw (Error (js "Unsupported role: " ++ roleToString r))
  | None => Throw (Error (js "Unsupported role: " ++ roleToString r))
  end.

Definition toOpenAIPart (part : Part)
  : completion OpenAIChatCompletionContentPart :=
  match text part with
  | Some t => Normal {| type := js "text"; part_text := t |}
  | None => Throw (Error (js "Unsupported part type"))
  end.

Definition toOpenAIChatCompletionMessage (c : Content)
  : completion OpenAIChatCompletionMessageParam :=
  r <- toOpenAIRole (role c) ;;
  ps <- match parts c with
        | Some l => mapM toOpenAIPart l
        | None => Normal []
        end ;;
  match ps with
  | [] => Throw (TypeError (js "type"))
  | messagePart :: _ =>
      if jsstring_eqb (type messagePart) (js "text")
      then Normal {| msg_role := r;
                     content := ContentString (part_text messagePart) |}
      else Throw (Error (js "Unsupported part type"))
  end.

(** ** JavaScript values, as [JSON.parse] builds them

    A number keeps the decimal it was written as:
    [(-1)^neg * mantissa * 10^exp10]. *)

Inductive JsVal : Type :=
| JUndefined
| JNull
| JBool (b : bool)
| JNumber (neg : bool) (mantissa : N) (exp10 : Z)
| JString (s : jsstring)
| JArray (elems : list JsVal)
| JObject (props : list (jsstring * JsVal)).

(** Own properties of a parsed object: a later duplicate key overwrites. *)
Fixpoint lookup (k : jsstring) (props : list (jsstring * JsVal))
  : option JsVal :=
  match props with
  | [] => None
  | (k', v) :: props' => if jsstring_eqb k k' then Some v else lookup k props'
  end.

Fixpoint setProp (k : jsstring) (v : JsVal) (props : list (jsstring * JsVal))
  : list (jsstring * JsVal) :=
  match props with
  | [] => [(k, v)]
  | (k', v') :: props' =>
      if jsstring_eqb k k' then (k, v) :: props'
      else (k', v') :: setProp k v props'
  end.

Definition orUndefined (o : option JsVal) : JsVal :=
  match o with
  | Some v => v
  | None => JUndefined
  end.

(** [v.name] for the names the source reads ([choices], [message],
    [delta], [content], [index], [finish_reason]): none of them is
    inherited from a prototype, so only objects answer, and reading off
    [undefined] or [null] raises a TypeError. *)
Definition getProp (v : JsVal) (name : jsstring) : completion JsVal :=
  match v with
  | JUndefined | JNull => Throw (TypeError name)
  | JObject props => Normal (orUndefined (lookup name props))
  | _ => Normal JUndefined
  end.

(** [v[0]] *)
Definition getIndex0 (v : JsVal) : completion JsVal :=
  match v with
  | JUndefined | JNull => Throw (TypeError (js "0"))
  | JArray elems => Normal (orUndefined (hd_error elems))
  | JString s =>
      Normal (match s with c :: _ => JString [c] | [] => JUndefined end)
  | JObject props => Normal (orUndefined (lookup (js "0") props))
  | _ => Normal JUndefined
  end.

(** A decimal that the nearest double rounds to zero: every magnitude up
    to [2^-1075], half of the least subnormal. *)
Definition roundsToZero (mantissa : N) (exp10 : Z) : bool :=
  (mantissa =? 0)
  || ((exp10 <? 0)%Z
      && (mantissa * 2 ^ 1075 <=? 10 ^ Z.to_N (- exp10))).

(** ToBoolean *)
Definition truthy (v : JsVal) : bool :=
  match v with
  | JUndefined | JNull => false
  | JBool b => b
  | JNumber _ m e => negb (roundsToZero m e)
  | JString s => match s with [] => false | _ :: _ => true end
  | JArray _ | JObject _ => true
  end.

(** [a || b] on values *)
Definition orElse (a b : JsVal) : JsVal := if truthy a then a else b.

(** ** JSON.parse (ECMA-404 grammar) *)

Module JSON.

Definition isSpace (c : N) : bool :=
  (c =? 0x20) || (c =? 0x09) || (c =? 0x0A) || (c =? 0x0D).

Fixpoint skipSpace (s : jsstring) : jsstring :=
  match s with
  | c :: s' => if isSpace c then skipSpace s' else s
  | [] => []
  end.

Definition isDigit (c : N) : bool := (0x30 <=? c) && (c <=? 0x39).

Definition hexDigit (c : N) : option N :=
  if isDigit c then Some (c - 0x30)
  else if (0x41 <=? c) && (c <=? 0x46) then Some (c - 0x41 + 10)
  else if (0x61 <=? c) && (c <=? 0x66) then Some (c - 0x61 + 10)
  else None.

Definition hex4 (a b c d : N) : option N :=
  match hexDigit a, hexDigit b, hexDigit c, hexDigit d with
  | Some x, Some y, Some z, Some w => Some (((x * 16 + y) * 16 + z) * 16 + w)
  | _, _, _, _ => None
  end.

(** The single-character escapes after a backslash. *)
Definition escape (c : N) : option N :=
  if c =? 0x22 then Some 0x22          (* quote *)
  else if c =? 0x5C then Some 0x5C     (* backslash *)
  else if c =? 0x2F then Some 0x2F     (* slash *)
  else if c =? 0x62 then Some 0x08     (* b *)
  else if c =? 0x66 then Some 0x0C     (* f *)
  else if c =? 0x6E then Some 0x0A     (* n *)
  else if c =? 0x72 then Some 0x0D     (* r *)
  else if c =? 0x74 then Some 0x09     (* t *)
  else None.

(** The characters of a string after its opening quote, up to the
    closing one; [acc] holds the decoded units in reverse. *)
Fixpoint stringBody (s acc : jsstring) : option (jsstring * jsstring) :=
  match s with
  | [] => None
  | c :: s1 =>
      if c =? 0x22 then Some (rev acc, s1)
      else if c =? 0x5C then
        match s1 with
        | [] => None
        | e :: s2 =>
            if e =? 0x75 then
              match s2 with
              | h1 :: h2 :: h3 :: h4 :: s3 =>
                  match hex4 h1 h2 h3 h4 with
                  | Some u => stringBody s3 (u :: acc)
                  | None => None
                  end
              | _ => None
              end
            else
              match escape e with
              | Some u => stringBody s2 (u :: acc)
              | None => None
              end
        end
      else if c <? 0x20 then None
      else stringBody s1 (c :: acc)
  end.

Fixpoint spanDigits (s : jsstring) : list N * jsstring :=
  match s with
  | c :: s' =>
      if isDigit c
      then let (ds, r) := spanDigits s' in ((c - 0x30) :: ds, r)
      else ([], s)
  | [] => ([], [])
  end.

Definition digitsValue (ds : list N) : N :=
  fold_left (fun a d => 10 * a + d) ds 0.

(** The integer part: a lone zero, or digits that start with 1 to 9. *)
Definition intPart (s : jsstring) : option (list N * jsstring) :=
  match s with
  | c :: s' =>
      if c =? 0x30 then Some ([0], s')
      else if isDigit c then Some (spanDigits s)
      else None
  | [] => None
  end.

Definition fracPart (s : jsstring) : option (list N * jsstring) :=
  match s with
  | c :: s' =>
      if c =? 0x2E then
        match spanDigits s' with
        | ([], _) => None
        | (ds, r) => Some (ds, r)
        end
      else Some ([], s)
  | [] => Some ([], [])
  end.

Definition signedDigits (s : jsstring) : option (Z * jsstring) :=
  let '(negative, s1) :=
    match s with
    | c :: s' =>
        if c =? 0x2D then (true, s')
        else if c =? 0x2B then (false, s')
        else (false, s)
    | [] => (false, [])
    end in
  match spanDigits s1 with
  | ([], _) => None
  | (ds, r) =>
      let v := Z.of_N (digitsValue ds) in
      Some (if negative then (- v)%Z else v, r)
  end.

Definition expPart (s : jsstring) : option (Z * jsstring) :=
  match s with
  | c :: s' =>
      if (c =? 0x65) || (c =? 0x45) then signedDigits s'
      else Some (0%Z, s)
  | [] => Some (0%Z, [])
  end.

Definition number (s : jsstring) : option (JsVal * jsstring) :=
  let '(negative, s1) :=
    match s with
    | c :: s' => if c =? 0x2D then (true, s') else (false, s)
    | [] => (false, [])
    end in
  match intPart s1 with
  | None => None
  | Some (ds, s2) =>
      match fracPart s2 with
      | None => None
      | Some (fs, s3) =>
          match expPart s3 with
          | None => None
          | Some (e, s4) =>
              Some (JNumber negative (digitsValue (ds ++ fs))
                      (e - Z.of_nat (List.length fs))%Z, s4)
          end
      end
  end.

Fixpoint value (fuel : nat) (s : jsstring) {struct fuel}
  : option (JsVal * jsstring) :=
  match fuel with
  | O => None
  | S fuel' =>
      match skipSpace s with
      | [] => None
      | c :: s' =>
          if c =? 0x7B then                                  (* { *)
            match skipSpace s' with
            | c2 :: s2 =>
                if c2 =? 0x7D then Some (JObject [], s2)
                else members fuel' s' []
            | [] => None
            end
          else if c =? 0x5B then                             (* [ *)
            match skipSpace s' with
            | c2 :: s2 =>
                if c2 =? 0x5D then Some (JArray [], s2)
                else elements fuel' s' []
            | [] => None
            end
          else if c =? 0x22 then
            match stringBody s' [] with
            | Some (str, r) => Some (JString str, r)
            | None => None
            end
          else if startsWith (c :: s') (js "true")
          then Some (JBool true, skipn 4 (c :: s'))
          else if startsWith (c :: s') (js "false")
          then Some (JBool false, skipn 5 (c :: s'))
          else if startsWith (c :: s') (js "null")
          then Some (JNull, skipn 4 (c :: s'))
          else number (c :: s')
      end
  end
with elements (fuel : nat) (s : jsstring) (acc : list JsVal) {struct fuel}
  : option (JsVal * jsstring) :=
  match fuel with
  | O => None
  | S fuel' =>
      match value fuel' s with
      | None => None
      | Some (v, r) =>
          match skipSpace r with
          | c :: r' =>
              if c =? 0x2C then elements fuel' r' (v :: acc)
              else if c =? 0x5D then Some (JArray (rev (v :: acc)), r')
              else None
          | [] => None
          end
      end
  end
with members (fuel : nat) (s : jsstring) (acc : list (jsstring * JsVal))
  {struct fuel} : option (JsVal * jsstring) :=
  match fuel with
  | O => None
  | S fuel' =>
      match skipSpace s with
      | q :: s1 =>
          if q =? 0x22 then
            match stringBody s1 [] with
            | None => None
            | Some (k, s2) =>
                match skipSpace s2 with
                | colon :: s3 =>
                    if colon =? 0x3A then
                      match value fuel' s3 with
                      | None => None
                      | Some (v, r) =>
                          match skipSpace r with
                          | c :: r' =>
                              if c =? 0x2C
                              then members fuel' r' (setProp k v acc)
                              else if c =? 0x7D
                              then Some (JObject (setProp k v acc), r')
                              else None
                          | [] => None
                          end
                      end
                    else None
                | [] => None
                end
            end
          else None
      | [] => None
      end
  end.

(** [JSON.parse(text)]: one value, nothing but white space after it;
    anything else is a SyntaxError.  Along a chain of nested calls a
    character of the text is consumed at least every second call, so a
    fuel of twice the length is never what makes a text fail. *)
Definition parse (text : jsstring) : completion JsVal :=
  match value (2 * List.length text + 2) text with
  | Some (v, r) =>
      match skipSpace r with
      | [] => Normal v
      | _ :: _ => Throw SyntaxError
      end
  | None => Throw SyntaxError
  end.

End JSON.

(** ** TextDecoder (WHATWG Encoding Standard, UTF-8, non-fatal)

    [decoder.decode(value, { stream: true })] runs the UTF-8 decoder over
    the bytes of [value] from the state the previous call left, and never
    flushes: an unfinished sequence stays in the state.  The text comes
    out as UTF-16 code units, without a leading byte order mark. *)

Module TextDecoder.

Record state : Type := {
  code_point : N;
  bytes_seen : N;
  bytes_needed : N;
  lower : N;
  upper : N;
  bom_seen : bool
}.

Definition idle (bom : bool) : state :=
  {| code_point := 0; bytes_seen := 0; bytes_needed := 0;
     lower := 0x80; upper := 0xBF; bom_seen := bom |}.

(** [new TextDecoder()] *)
Definition init : state := idle false.

(** The handler when no sequence is open: the state it leaves and the
    code points it emits. *)
Definition lead (bom : bool) (b : N) : state * list N :=
  if b <=? 0x7F then (idle bom, [b])
  else if (0xC2 <=? b) && (b <=? 0xDF) then
    ({| code_point := N.land b 0x1F; bytes_seen := 0; bytes_needed := 1;
        lower := 0x80; upper := 0xBF; bom_seen := bom |}, [])
  else if (0xE0 <=? b) && (b <=? 0xEF) then
    ({| code_point := N.land b 0xF; bytes_seen := 0; bytes_needed := 2;
        lower := if b =? 0xE0 then 0xA0 else 0x80;
        upper := if b =? 0xED then 0x9F else 0xBF; bom_seen := bom |}, [])
  else if (0xF0 <=? b) && (b <=? 0xF4) then
    ({| code_point := N.land b 0x7; bytes_seen := 0; bytes_needed := 3;
        lower := if b =? 0xF0 then 0x90 else 0x80;
        upper := if b =? 0xF4 then 0x8F else 0xBF; bom_seen := bom |}, [])
  else (idle bom, [0xFFFD]).

(** The UTF-8 decoder's handler on one byte.  A byte outside the
    expected range ends the open sequence with U+FFFD and is then read
    again as a lead byte. *)
Definition handler (st : state) (b : N) : state * list N :=
  if bytes_needed st =? 0 then lead (bom_seen st) b
  else if negb ((lower st <=? b) && (b <=? upper st)) then
    let (st', out) := lead (bom_seen st) b in (st', 0xFFFD :: out)
  else
    let cp := N.lor (N.shiftl (code_point st) 6) (N.land b 0x3F) in
    let seen := bytes_seen st + 1 in
    if seen =? bytes_needed st then (idle (bom_seen st), [cp])
    else ({| code_point := cp; bytes_seen := seen;
             bytes_needed := bytes_needed st;
             lower := 0x80; upper := 0xBF; bom_seen := bom_seen st |}, []).

(** A code point as UTF-16. *)
Definition utf16 (cp : N) : jsstring :=
  if cp <? 0x10000 then [cp]
  else [0xD800 + N.shiftr (cp - 0x10000) 10;
        0xDC00 + N.land (cp - 0x10000) 0x3FF].

(** Serializing the emitted code points: the first one of the stream is
    dropped when it is U+FEFF. *)
Fixpoint serialize (bom : bool) (cps : list N) : bool * jsstring :=
  match cps with
  | [] => (bom, [])
  | cp :: cps' =>
      let (bom', out) := serialize true cps' in
      (bom', if negb bom && (cp =? 0xFEFF) then out else utf16 cp ++ out)
  end.

Definition step (st : state) (b : byte) : state * jsstring :=
  let (st1, cps) := handler st (Byte.to_N b) in
  let (bom, out) := serialize (bom_seen st1) cps in
  ({| code_point := code_point st1; bytes_seen := bytes_seen st1;
      bytes_needed := bytes_needed st1; lower := lower st1;
      upper := upper st1; bom_seen := bom |}, out).

(** [decode(value, { stream: true })] *)
Fixpoint decode (st : state) (value : list byte) : state * jsstring :=
  match value with
  | [] => (st, [])
  | b :: value' =>
      let (st1, out1) := step st b in
      let (st2, out2) := decode st1 value' in
      (st2, out1 ++ out2)
  end.

End TextDecoder.

(** ** The generic response the adapter builds *)

Record ResponsePart : Type := { rp_text : JsVal }.

Record ResponseContent : Type := {
  rc_role : jsstring;
  rc_parts : list ResponsePart
}.

Record PromptFeedback : Type := {
  blockReason : JsVal;
  pf_safetyRatings : list JsVal
}.

Record Candidate : Type := {
  index : JsVal;
  cand_content : ResponseContent;
  finishReason : JsVal;
  safetyRatings : list JsVal;
  citationMetadata : JsVal
}.

Record GenerateContentResponse : Type := {
  promptFeedback : PromptFeedback;
  candidates : list Candidate
}.

(** The object literal both entry points build, from the three values
    read off the backend's choice, in the order the literal reads them. *)
Definition responseLiteral (index textField finish : JsVal)
  : GenerateContentResponse :=
  {| promptFeedback := {| blockReason := JUndefined; pf_safetyRatings := [] |};
     candidates :=
       [ {| index := index;
            cand_content :=
              {| rc_role := js "model";
                 rc_parts := [ {| rp_text := orElse textField (JString []) |} ] |};
            finishReason := finish;
            safetyRatings := [];
            citationMetadata := JUndefined |} ] |}.

(** ** The transport, as the calls see it *)

Record RequestBody : Type := {
  model : jsstring;
  messages : list OpenAIChatCompletionMessageParam;
  stream : bool
}.

Record Response : Type := {
  ok : bool;
  status : N;
  statusText : jsstring;
  (** what [response.text()] resolves to *)
  responseText : jsstring;
  (** the chunks [response.body.getReader()] delivers before [done];
      [None] when the response has no body *)
  body : option (list (list byte))
}.

Record Env : Type := {
  OPENAI_MODEL : option jsstring;
  fetchAPI : RequestBody -> Response
}.

Record GenerateContentParameters : Type := {
  req_model : jsstring;
  contents : list Content
}.

(** [process.env.OPENAI_MODEL || ''] *)
Definition modelName (env : Env) : jsstring :=
  match OPENAI_MODEL env with
  | Some s => s
  | None => []
  end.

Definition apiError (response : Response) : JsError :=
  Error (js "OpenAI API error: " ++ numberToString (status response)
           ++ js " " ++ statusText response
           ++ js " - " ++ responseText response).

(** ** generateContent *)

Definition generateContent (env : Env) (request : GenerateContentParameters)
  : completion GenerateContentResponse :=
  msgs <- mapM toOpenAIChatCompletionMessage (contents request) ;;
  let response :=
    fetchAPI env {| model := modelName env; messages := msgs;
                    stream := false |} in
  if negb (ok response) then Throw (apiError response)
  else
    responseData <- JSON.parse (responseText response) ;;
    choices <- getProp responseData (js "choices") ;;
    choice <- getIndex0 choices ;;
    message <- getProp choice (js "message") ;;
    idx <- getProp choice (js "index") ;;
    txt <- getProp message (js "content") ;;
    fin <- getProp choice (js "finish_reason") ;;
    Normal (responseLiteral idx txt fin).

(** ** generateContentStream *)

(** What the generator does that a caller or a test can see. *)
Inductive Event : Type :=
| Yield (r : GenerateContentResponse)
| ConsoleError (e : JsError).

(** The body of the [try] block for one payload. *)
Definition deltaResponse (data : jsstring)
  : completion GenerateContentResponse :=
  part <- JSON.parse data ;;
  choices <- getProp part (js "choices") ;;
  choice <- getIndex0 choices ;;
  delta <- getProp choice (js "delta") ;;
  idx <- getProp choice (js "index") ;;
  txt <- getProp delta (js "content") ;;
  fin <- getProp choice (js "finish_reason") ;;
  Normal (responseLiteral idx txt fin).

(** One turn of [for (const line of lines)]: the event of the line, if
    any, and whether the generator returned. *)
Inductive LineResult : Type :=
| Skipped
| Emitted (e : Event)
| Returned.

Definition processLine (line : jsstring) : LineResult :=
  if startsWith line (js "data: ") then
    let data := substring line 6 in
    if jsstring_eqb (trim data) (js "[DONE]") then Returned
    else match deltaResponse data with
         | Normal r => Emitted (Yield r)
         | Throw e => Emitted (ConsoleError e)
         end
  else Skipped.

(** The [for] loop over the complete lines of one chunk: its events, and
    [true] when a line made the generator return. *)
Fixpoint processLines (lines : list jsstring) : list Event * bool :=
  match lines with
  | [] => ([], false)
  | line :: lines' =>
      match processLine line with
      | Returned => ([], true)
      | Skipped => processLines lines'
      | Emitted e => let (es, r) := processLines lines' in (e :: es, r)
      end
  end.

(** [lines.pop() || ''] *)
Definition popOrEmpty (lines : list jsstring) : list jsstring * jsstring :=
  let (front, last) := pop lines in
  (front, match last with
          | Some (c :: s) => c :: s
          | Some [] | None => []
          end).

Record GeneratorState : Type := {
  decoder : TextDecoder.state;
  buffer : jsstring
}.

(** How the generator ended: on the terminator line, or because the
    reader reported [done]. *)
Inductive Ending : Type := ReturnedOnDone | ReaderDone.

(** One turn of [while (true)] for a chunk [value]. *)
Definition onChunk (st : GeneratorState) (value : list byte)
  : GeneratorState * (list Event * bool) :=
  let (dec, txt) := TextDecoder.decode (decoder st) value in
  let (lines, rest) := popOrEmpty (split 0x0A (buffer st ++ txt)) in
  ({| decoder := dec; buffer := rest |}, processLines lines).

Fixpoint generatorLoop (st : GeneratorState) (chunks : list (list byte))
  : list Event * Ending :=
  match chunks with
  | [] => ([], ReaderDone)
  | value :: chunks' =>
      let (st', r) := onChunk st value in
      let (es, returned) := r in
      if returned then (es, ReturnedOnDone)
      else let (es', ending) := generatorLoop st' chunks' in
           (es ++ es', ending)
  end.

(** The generator, run to its end over the chunks of the body. *)
Definition generator (chunks : list (list byte)) : list Event * Ending :=
  generatorLoop {| decoder := TextDecoder.init; buffer := [] |} chunks.

Fixpoint yields (es : list Event) : list GenerateContentResponse :=
  match es with
  | [] => []
  | Yield r :: es' => r :: yields es'
  | ConsoleError _ :: es' => yields es'
  end.

Definition generateContentStream (env : Env)
  (request : GenerateContentParameters)
  : completion (list Event * Ending) :=
  msgs <- mapM toOpenAIChatCompletionMessage (contents request) ;;
  let response :=
    fetchAPI env {| model := modelName env; messages := msgs;
                    stream := true |} in
  match ok response, body response with
  | true, Some chunks => Normal (generator chunks)
  | _, _ => Throw (apiError response)
  end.

(** ** Vocabulary of the statements below *)

(** The text of a stream once every chunk went through the decoder. *)
Definition streamText (chunks : list (list byte)) : jsstring :=
  snd (TextDecoder.decode TextDecoder.init (List.concat chunks)).

Definition newlineFree (s : jsstring) : Prop := ~ In 0x0A s.

(** Complete lines, each closed by a newline, one after the other. *)
Fixpoint joinLines (lines : list jsstring) : jsstring :=
  match lines with
  | [] => []
  | l :: lines' => l ++ 0x0A :: joinLines lines'
  end.

(** The buffer cut at its newlines: the complete lines, and what follows
    the last newline. *)
Fixpoint cut (s : jsstring) : list jsstring * jsstring :=
  match s with
  | [] => ([], [])
  | c :: s' =>
      let (ls, r) := cut s' in
      if c =? 0x0A then ([] :: ls, r)
      else match ls with
           | [] => ([], c :: r)
           | l :: ls' => ((c :: l) :: ls', r)
           end
  end.

(** A line that carries the payload [data]. *)
Definition dataLine (data : jsstring) : jsstring := js "data: " ++ data.

Definition isDataLine (line : jsstring) : bool := startsWith line (js "data: ").

(** A line the decoder takes for the terminator. *)
Definition isTerminator (line : jsstring) : Prop :=
  processLine line = Returned.

(** What the generator does with a stream whose complete lines are
    [lines]. *)
Definition runLines (lines : list jsstring) : list Event * Ending :=
  let (es, returned) := processLines lines in
  (es, if returned then ReturnedOnDone else ReaderDone).

(** The texts of the parts of the candidates of a response, in order. *)
Definition candidateTexts (r : GenerateContentResponse) : list JsVal :=
  flat_map (fun c => List.map rp_text (rc_parts (cand_content c)))
    (candidates r).

Definition isObject (v : JsVal) : bool :=
  match v with
  | JObject _ => true
  | _ => false
  end.


(** Whether a thrown value comes from a [throw new Error(...)] of the
    adapter, as its refusals of a role or of a part do, or from the
    runtime. *)
Definition thrownByAdapter (e : JsError) : bool :=
  match e with
  | Error _ => true
  | TypeError _ | SyntaxError => false
  end.

(** The JSON text [data] holds the string [t] as the content of the
    [field] ([message] or [delta]) of its first choice. *)
Definition carries (field data t : jsstring) : Prop :=
  exists part choices choice inner,
    JSON.parse data = Normal part /\
    getProp part (js "choices") = Normal choices /\
    getIndex0 choices = Normal choice /\
    getProp choice field = Normal inner /\
    getProp inner (js "content") = Normal (JString t).

(** The reply of a backend that echoes the text [t] as the content of
    its first choice's message. *)
Definition echoes (response : Response) (t : jsstring) : Prop :=
  ok response = true /\ carries (js "message") (responseText response) t.

(** ** Backends and streams to try the statements on *)

(** A backend that answers 401 with the body [invalid key]. *)
Definition unauthorized : Env :=
  {| OPENAI_MODEL := Some (js "gpt-4o");
     fetchAPI := fun _ =>
       {| ok := false; status := 401; statusText := js "Unauthorized";
          responseText := js "invalid key"; body := None |} |}.

Definition helloRequest : GenerateContentParameters :=
  {| req_model := js "gemini-pro";
     contents := [ {| role := Some (js "user");
                      parts := Some [textPart (js "hello")] |} ] |}.

(** A backend that answers with the text [hello] in its first choice. *)
Definition echoHello : Env :=
  {| OPENAI_MODEL := None;
     fetchAPI := fun _ =>
       {| ok := true; status := 200; statusText := js "OK";
          responseText :=
            jsq "{ 'choices': [ { 'index': 0, 'message': { 'role': 'assistant', 'content': 'hello' }, 'finish_reason': 'stop' } ] }";
          body := None |} |}.

(** In the literals below an apostrophe stands for a double quote and a
    vertical bar for a newline. *)

Definition wire (s : string) : list byte :=
  List.map (fun b => match b with
                     | x27 => x22
                     | x7c => x0a
                     | _ => b
                     end) (list_byte_of_string s).

Definition helPayload : jsstring :=
  jsq "{'choices':[{'index':0,'delta':{'content':'Hel'},'finish_reason':null}]}".

Definition loPayload : jsstring :=
  jsq "{'choices':[{'index':0,'delta':{'content':'lo'},'finish_reason':'stop'}]}".

Definition helResponse : GenerateContentResponse :=
  responseLiteral (JNumber false 0 0) (JString (js "Hel")) JNull.

Definition loResponse : GenerateContentResponse :=
  responseLiteral (JNumber false 0 0) (JString (js "lo")) (JString (js "stop")).

(** Two deltas and the terminator, with the blank lines of the event
    stream format, cut in the middle of the second line. *)
Definition helloStream : list (list byte) :=
  [ wire "data: {'choices':[{'index':0,'delta':{'content':'Hel'},'finish_reason':null}]}||da";
    wire "ta: {'choices':[{'index':0,'delta':{'content':'lo'},'finish_reason':'stop'}]}||data: [DONE]||" ].

(** The same with a line that is not JSON between the deltas, and a
    delta after the terminator. *)
Definition glitchStream : list (list byte) :=
  [ wire "data: {'choices':[{'index':0,'delta':{'content':'Hel'},'finish_reason':null}]}|";
    wire "data: {'choices':[{'index':0,'del|";
    wire "data: {'choices':[{'index':0,'delta':{'content':'lo'},'finish_reason':'stop'}]}|data: [DONE]|";
    wire "data: {'choices':[{'index':0,'delta':{'content':'lo'},'finish_reason':'stop'}]}|" ].

(** A delta, then a second one that no newline closes before the reader
    is done. *)
Definition truncatedStream : list (list byte) :=
  [ wire "data: {'choices':[{'index':0,'delta':{'content':'Hel'},'finish_reason':null}]}|data: {'choices':[{'index':0,'delta':{'content':'lo'},'finish_reason':'stop'}]}" ].

(** ** The constructor *)

(** The two variables of [process.env] the constructor reads. *)
Record ProcessEnv : Type := {
  OPENAI_API_KEY : option jsstring;
  OPENAI_BASE_URL : option jsstring
}.

Record OpenAIContentGenerator : Type := {
  apiKey : jsstring;
  baseUrl : jsstring
}.

(** [a || b] for an optional string [a]: [undefined] and the empty string
    are falsy. *)
Definition orString (a : option jsstring) (b : jsstring) : jsstring :=
  match a with
  | Some (c :: s) => c :: s
  | Some [] | None => b
  end.

Definition missingKeyMessage : jsstring :=
  js "OpenAI API key is not provided. Please set the OPENAI_API_KEY environment variable.".

(** [new OpenAIContentGenerator(apiKey, baseUrl)] *)
Definition constructor (env : ProcessEnv) (apiKeyArg baseUrlArg : option jsstring)
  : completion OpenAIContentGenerator :=
  let key := orString apiKeyArg (orString (OPENAI_API_KEY env) []) in
  let url := orString baseUrlArg
               (orString (OPENAI_BASE_URL env) (js "https://api.openai.com/v1")) in
  match key with
  | [] => Throw (Error missingKeyMessage)
  | _ :: _ => Normal {| apiKey := key; baseUrl := url |}
  end.

(** An optional string that is there and not empty. *)
Definition provided (a : option jsstring) : Prop :=
  exists c s, a = Some (c :: s).

(** A reply that is JSON but holds no [field] ([message] or [delta]) to
    read the content from: the cases of [lacksStructure], for either
    entry point. *)
Inductive lacksField (field : jsstring) : JsVal -> Prop :=
| FieldNotAnObject v :
    isObject v = false ->
    lacksField field v
| FieldNoChoices props :
    lookup (js "choices") props = None \/
    lookup (js "choices") props = Some JNull \/
    lookup (js "choices") props = Some (JArray []) ->
    lacksField field (JObject props)
| FieldChoiceNotAnObject props choice others :
    lookup (js "choices") props = Some (JArray (choice :: others)) ->
    isObject choice = false ->
    lacksField field (JObject props)
| FieldMissing props choiceProps others :
    lookup (js "choices") props
      = Some (JArray (JObject choiceProps :: others)) ->
    lookup field choiceProps = None \/ lookup field choiceProps = Some JNull ->
    lacksField field (JObject props).

(** The shape of every response the adapter builds: no prompt feedback,
    one candidate of the model with one part, and no ratings. *)
Definition oneCandidate (r : GenerateContentResponse) : Prop :=
  exists idx t fin,
    r = {| promptFeedback :=
             {| blockReason := JUndefined; pf_safetyRatings := [] |};
           candidates :=
             [ {| index := idx;
                  cand_content :=
                    {| rc_role := js "model"; rc_parts := [ {| rp_text := t |} ] |};
                  finishReason := fin;
                  safetyRatings := [];
                  citationMetadata := JUndefined |} ] |} /\
    (truthy t = true \/ t = JString []).

(** The body of [generateContent] after a reply that is OK: what is read
    off the parsed reply. *)
Definition readChoice (field : jsstring) (v : JsVal)
  : completion GenerateContentResponse :=
  choices <- getProp v (js "choices") ;;
  choice <- getIndex0 choices ;;
  inner <- getProp choice field ;;
  idx <- getProp choice (js "index") ;;
  txt <- getProp inner (js "content") ;;
  fin <- getProp choice (js "finish_reason") ;;
  Normal (responseLiteral idx txt fin).

(** A backend whose reply holds no choice. *)
Definition emptyChoices : Env :=
  {| OPENAI_MODEL := None;
     fetchAPI := fun _ =>
       {| ok := true; status := 200; statusText := js "OK";
          responseText := jsq "{'id':'chatcmpl-1','choices':[]}";
          body := None |} |}.

(** Every code unit of [s] is white space for [trim]. *)
Definition allWhiteSpace (s : jsstring) : Prop :=
  Forall (fun c => isWhiteSpace c = true) s.

(** The stream of [helloStream] as an event stream with comments, event
    names and a data field without the space after the colon. *)
Definition noisyStream : list (list byte) :=
  [ wire ": connected|event: delta|data: {'choices':[{'index':0,'delta':{'content':'Hel'},'finish_reason':null}]}|";
    wire "|data:{'choices':[{'index':0,'delta':{'content':'??'}}]}|event: delta|";
    wire "data: {'choices':[{'index':0,'delta':{'content':'lo'},'finish_reason':'stop'}]}||data: [DONE]|" ].

(** The carriage return a stream with CRLF line ends leaves at the end of
    each line. *)
Definition CR : jsstring := [0x0D].

(** What a parser returns, with a carriage return after the rest. *)
Definition restCR {A : Type} (x : option (A * jsstring)) : option (A * jsstring) :=
  match x with
  | Some (a, r) => Some (a, r ++ CR)
  | None => None
  end.

(** The stream of [helloStream] with CRLF line ends. *)
Definition crlfStream : list (list byte) :=
  [ wire "data: {'choices':[{'index':0,'delta':{'content':'Hel'},'finish_reason':null}]}"
      ++ [x0d; x0a; x0d; x0a]
      ++ wire "data: {'choices':[{'index':0,'delta':{'content':'lo'},'finish_reason':'stop'}]}"
      ++ [x0d; x0a; x0d];
    [x0a] ++ wire "data: [DONE]" ++ [x0d; x0a; x0d; x0a] ].

(** ** Parts as objects

    [Part.text] is an optional property: an object of that type may hold
    the key [text] with the value [undefined], and [toOpenAIPart] asks
    for the key only.  The records below tell a key that is absent from a
    key that holds [undefined]; the translation is written on them as it
    is on [Part] and [Content] above. *)

Record PartObject : Type := {
  (** [None]: no key [text]; [Some None]: the key, holding [undefined] *)
  textKey : option (option jsstring);
  inlineDataKey : option jsstring;
  functionCallKey : option jsstring;
  functionResponseKey : option jsstring
}.

Record ContentObject : Type := {
  roleKey : option jsstring;
  partsKey : option (list PartObject)
}.

(** What [toOpenAIPart] returns: the text as it is in the part. *)
Record ContentPartObject : Type := {
  typeValue : jsstring;
  textValue : option jsstring
}.

(** A message as it goes on the wire: a content that is a string, or
    [undefined]. *)
Record MessageObject : Type := {
  roleValue : OpenAIRole;
  contentValue : option jsstring
}.

Record WireBody : Type := {
  wireModel : jsstring;
  wireMessages : list MessageObject;
  wireStream : bool
}.

Definition toOpenAIPartObject (part : PartObject) : completion ContentPartObject :=
  match textKey part with
  | Some v => Normal {| typeValue := js "text"; textValue := v |}
  | None => Throw (Error (js "Unsupported part type"))
  end.

Definition toOpenAIMessageObject (c : ContentObject) : completion MessageObject :=
  r <- toOpenAIRole (roleKey c) ;;
  ps <- match partsKey c with
        | Some l => mapM toOpenAIPartObject l
        | None => Normal []
        end ;;
  match ps with
  | [] => Throw (TypeError (js "type"))
  | messagePart :: _ =>
      if jsstring_eqb (typeValue messagePart) (js "text")
      then Normal {| roleValue := r; contentValue := textValue messagePart |}
      else Throw (Error (js "Unsupported part type"))
  end.

(** A [Part] and a [Content], as objects: a text that is there is a key
    that holds a string. *)
Definition partObject (p : Part) : PartObject :=
  {| textKey := option_map Some (text p);
     inlineDataKey := inlineData p;
     functionCallKey := functionCall p;
     functionResponseKey := functionResponse p |}.

Definition contentObject (c : Content) : ContentObject :=
  {| roleKey := role c;
     partsKey := option_map (List.map partObject) (parts c) |}.

(** A message whose content is a string, as an object; a content that is
    a list of parts, which the translation never builds, has none. *)
Definition messageObject (m : OpenAIChatCompletionMessageParam)
  : option MessageObject :=
  match content m with
  | ContentString t => Some {| roleValue := msg_role m; contentValue := Some t |}
  | ContentParts _ => None
  end.

(** ** The calls of fetchAPI

    The two entry points with the bodies they pass to [fetchAPI] written
    down, in the order of the calls: the turns are translated first, and
    [fetchAPI] is called once, after that. *)





(** ** JSON.stringify and fetchAPI

    [JSON.stringify] on the body of a request, after ECMA-262
    (QuoteJSONString, SerializeJSONObject, SerializeJSONArray, no
    indentation). *)

Module Stringify.

Definition hexChar (n : N) : N :=
  if n <? 10 then 0x30 + n else 0x61 + (n - 10).

(** [\uXXXX] with lower-case digits. *)
Definition unicodeEscape (c : N) : jsstring :=
  [0x5C; 0x75; hexChar ((c / 4096) mod 16); hexChar ((c / 256) mod 16);
   hexChar ((c / 16) mod 16); hexChar (c mod 16)].

Definition isLeadingSurrogate (c : N) : bool := (0xD800 <=? c) && (c <=? 0xDBFF).

Definition isTrailingSurrogate (c : N) : bool := (0xDC00 <=? c) && (c <=? 0xDFFF).

(** A code unit that is no surrogate. *)
Definition quoteUnit (c : N) : jsstring :=
  if c =? 0x08 then [0x5C; 0x62]
  else if c =? 0x09 then [0x5C; 0x74]
  else if c =? 0x0A then [0x5C; 0x6E]
  else if c =? 0x0C then [0x5C; 0x66]
  else if c =? 0x0D then [0x5C; 0x72]
  else if c =? 0x22 then [0x5C; 0x22]
  else if c =? 0x5C then [0x5C; 0x5C]
  else if c <? 0x20 then unicodeEscape c
  else [c].

(** The characters between the quotes: a surrogate pair stays as it is,
    a lone surrogate is escaped. *)
Fixpoint quoteBody (s : jsstring) : jsstring :=
  match s with
  | [] => []
  | c :: s1 =>
      if isLeadingSurrogate c then
        match s1 with
        | d :: s2 =>
            if isTrailingSurrogate d then c :: d :: quoteBody s2
            else unicodeEscape c ++ quoteBody s1
        | [] => unicodeEscape c
        end
      else if isTrailingSurrogate c then unicodeEscape c ++ quoteBody s1
      else quoteUnit c ++ quoteBody s1
  end.

(** QuoteJSONString *)
Definition quote (s : jsstring) : jsstring := 0x22 :: quoteBody s ++ [0x22].

(** The texts of the elements of an array or of the members of an
    object, with commas between them. *)
Fixpoint commas (texts : list jsstring) : jsstring :=
  match texts with
  | [] => []
  | [t] => t
  | t :: texts' => t ++ 0x2C :: commas texts'
  end.

Definition member (key value : jsstring) : jsstring := quote key ++ 0x3A :: value.

Definition object (members : list jsstring) : jsstring :=
  0x7B :: commas members ++ [0x7D].

Definition array (elements : list jsstring) : jsstring :=
  0x5B :: commas elements ++ [0x5D].

Definition roleName (r : OpenAIRole) : jsstring :=
  match r with
  | user => js "user"
  | assistant => js "assistant"
  | system => js "system"
  | tool => js "tool"
  end.

Definition message (m : MessageObject) : jsstring :=
  object (member (js "role") (quote (roleName (roleValue m)))
            :: match contentValue m with
               | Some t => [member (js "content") (quote t)]
               | None => []
               end).

(** [JSON.stringify(body)] for the object literal of the two entry
    points: its keys in the order they are written. *)
Definition requestBody (b : WireBody) : jsstring :=
  object [member (js "model") (quote (wireModel b));
          member (js "messages") (array (List.map message (wireMessages b)));
          member (js "stream") (if wireStream b then js "true" else js "false")].

End Stringify.

(** The arguments of the call of [fetch]. *)
Record FetchCall : Type := {
  url : jsstring;
  method : jsstring;
  headers : list (jsstring * jsstring);
  fetchBody : jsstring
}.

(** [this.fetchAPI(body)], up to the call of [fetch]. *)
Definition fetchCall (this : OpenAIContentGenerator) (b : WireBody)
  : FetchCall :=
  {| url := baseUrl this ++ js "/chat/completions";
     method := js "POST";
     headers := [ (js "Content-Type", js "application/json");
                  (js "Authorization", js "Bearer " ++ apiKey this) ];
     fetchBody := Stringify.requestBody b |}.

(** The values a message and a body are, as [JSON.parse] would build
    them: a message whose content is [undefined] has no key [content]. *)
Definition messageValue (m : MessageObject) : JsVal :=
  JObject ((js "role", JString (Stringify.roleName (roleValue m)))
             :: match contentValue m with
                | Some t => [(js "content", JString t)]
                | None => []
                end).

Definition bodyValue (b : WireBody) : JsVal :=
  JObject [ (js "model", JString (wireModel b));
            (js "messages", JArray (List.map messageValue (wireMessages b)));
            (js "stream", JBool (wireStream b)) ].

(** A body with a text that holds a quote, a backslash, a newline, a
    lone surrogate and a surrogate pair, an empty text and a content
    that is [undefined]. *)
Definition awkwardBody : WireBody :=
  {| wireModel := js "gpt-4o";
     wireMessages :=
       [ {| roleValue := user;
            contentValue := Some [0x22; 0x5C; 0x0A; 0xD800; 0x41; 0xD83D; 0xDE00] |};
         {| roleValue := assistant; contentValue := Some [] |};
         {| roleValue := user; contentValue := None |} ];
     wireStream := true |}.

(** * Properties *)

(** ** Strings *)

Lemma jsstring_eqb_eq (a b : jsstring) : jsstring_eqb a b = true <-> a = b.
Proof.
  revert b; induction a as [|x a IH]; intros [|y b]; simpl;
    try (split; [discriminate | discriminate]); try tauto.
  rewrite andb_true_iff, N.eqb_eq, IH.
  split; [intros [-> ->]; reflexivity | intros H; inversion H; auto].
Qed.

Lemma jsstring_eqb_refl (a : jsstring) : jsstring_eqb a a = true.
Proof. apply jsstring_eqb_eq; reflexivity. Qed.

Lemma jsstring_eqb_neq (a b : jsstring) : a <> b -> jsstring_eqb a b = false.
Proof.
  intros H; destruct (jsstring_eqb a b) eqn:E; [|reflexivity].
  apply jsstring_eqb_eq in E; contradiction.
Qed.

Lemma includes_intro (before needle after : jsstring) :
  includes (before ++ needle ++ after) needle.
Proof. exists before, after; reflexivity. Qed.

(** ** The outbound translation *)

Lemma toOpenAIRole_other (r : option jsstring) :
  r <> Some (js "user") -> r <> Some (js "model") ->
  toOpenAIRole r = Throw (Error (js "Unsupported role: " ++ roleToString r)).
Proof.
  intros Hu Hm; destruct r as [s|]; [|reflexivity].
  unfold toOpenAIRole.
  rewrite (jsstring_eqb_neq s (js "user")) by congruence.
  rewrite (jsstring_eqb_neq s (js "model")) by congruence.
  reflexivity.
Qed.

Lemma toOpenAIRole_Normal (r : option jsstring) (o : OpenAIRole) :
  toOpenAIRole r = Normal o ->
  (r = Some (js "user") /\ o = user) \/ (r = Some (js "model") /\ o = assistant).
Proof.
  destruct r as [s|]; [|discriminate]; unfold toOpenAIRole.
  destruct (jsstring_eqb s (js "user")) eqn:Eu.
  - apply jsstring_eqb_eq in Eu; intros H; inversion H; subst; auto.
  - destruct (jsstring_eqb s (js "model")) eqn:Em; [|discriminate].
    apply jsstring_eqb_eq in Em; intros H; inversion H; subst; auto.
Qed.

Lemma mapM_toOpenAIPart_text (l : list Part) :
  Forall (fun p => text p <> None) l ->
  exists ps, mapM toOpenAIPart l = Normal ps /\ List.length ps = List.length l.
Proof.
  induction 1 as [|p l Hp _ [ps [IH Hlen]]]; simpl.
  - exists []; auto.
  - unfold toOpenAIPart at 1. destruct (text p) as [t|]; [|contradiction].
    simpl; rewrite IH; simpl. eexists; split; [reflexivity|simpl; lia].
Qed.

Lemma mapM_toOpenAIPart_other (l : list Part) :
  Exists (fun p => text p = None) l ->
  mapM toOpenAIPart l = Throw (Error (js "Unsupported part type")).
Proof.
  induction 1 as [p l Hp | p l _ IH]; simpl.
  - unfold toOpenAIPart at 1; rewrite Hp; reflexivity.
  - unfold toOpenAIPart at 1; destruct (text p); [|reflexivity].
    simpl; rewrite IH; reflexivity.
Qed.

Lemma message_of_text_parts (c : Content) (r : OpenAIRole)
  (first : Part) (rest : list Part) (t : jsstring) :
  toOpenAIRole (role c) = Normal r ->
  parts c = Some (first :: rest) ->
  text first = Some t ->
  Forall (fun p => text p <> None) rest ->
  toOpenAIChatCompletionMessage c
    = Normal {| msg_role := r; content := ContentString t |}.
Proof.
  intros Hr Hp Ht Hrest. unfold toOpenAIChatCompletionMessage.
  rewrite Hr, Hp; simpl. unfold toOpenAIPart at 1; rewrite Ht; simpl.
  destruct (mapM_toOpenAIPart_text rest Hrest) as [ps [-> _]]; reflexivity.
Qed.

(** C5. The role mapping sends [user] to [user] and [model] to
    [assistant]; a turn with any other role (an absent one too) is
    refused with the [Unsupported role] error, whatever its parts; and a
    message that is produced has the role [user] or [assistant]. *)
Theorem role_mapping_user_assistant_only :
  toOpenAIRole (Some (js "user")) = Normal user /\
  toOpenAIRole (Some (js "model")) = Normal assistant /\
  (forall c : Content,
      role c <> Some (js "user") -> role c <> Some (js "model") ->
      toOpenAIChatCompletionMessage c
        = Throw (Error (js "Unsupported role: " ++ roleToString (role c)))) /\
  (forall (c : Content) (m : OpenAIChatCompletionMessageParam),
      toOpenAIChatCompletionMessage c = Normal m ->
      msg_role m = user \/ msg_role m = assistant).
Proof.
  repeat split; try reflexivity.
  - intros c Hu Hm. unfold toOpenAIChatCompletionMessage.
    rewrite (toOpenAIRole_other _ Hu Hm); reflexivity.
  - intros c m. unfold toOpenAIChatCompletionMessage.
    destruct (toOpenAIRole (role c)) as [r|e] eqn:Hr; [|discriminate].
    apply toOpenAIRole_Normal in Hr. simpl.
    destruct (match parts c with Some l => mapM toOpenAIPart l | None => Normal [] end)
      as [[|p ps]|e]; simpl; try discriminate.
    destruct (jsstring_eqb (type p) (js "text")); [|discriminate].
    intros H; inversion H; subst; simpl. tauto.
Qed.

(** The turn with the role [tool] of the specification's example. *)
Example tool_turn_refused :
  toOpenAIChatCompletionMessage
    {| role := Some (js "tool"); parts := Some [textPart (js "result")] |}
  = Throw (Error (js "Unsupported role: tool")).
Proof. reflexivity. Qed.

(** C3. The code misses the empty turn: where an unsupported role and an
    unsupported part are refused by an [Error] the adapter throws, the
    turn of a user with no parts runs into the TypeError the runtime
    raises when [type] is read off the missing first part, and into no
    error of the adapter. *)
Lemma empty_turn_raises_TypeError :
  toOpenAIChatCompletionMessage {| role := Some (js "user"); parts := Some [] |}
    = Throw (TypeError (js "type")) /\
  (forall e : JsError,
      toOpenAIChatCompletionMessage
        {| role := Some (js "user"); parts := Some [] |} = Throw e ->
      thrownByAdapter e = false).
Proof.
  split; [reflexivity|].
  intros e H. vm_compute in H. inversion H; reflexivity.
Qed.

(** What the code does on every turn whose parts are empty or absent:
    with the role [user] or [model] the runtime's TypeError on reading
    [type] off the missing first part, with any other role the
    [Unsupported role] error, which comes first. *)
Theorem empty_turn_fails (c : Content) :
  parts c = None \/ parts c = Some [] ->
  (role c = Some (js "user") \/ role c = Some (js "model") ->
   toOpenAIChatCompletionMessage c = Throw (TypeError (js "type"))) /\
  (role c <> Some (js "user") -> role c <> Some (js "model") ->
   toOpenAIChatCompletionMessage c
     = Throw (Error (js "Unsupported role: " ++ roleToString (role c)))).
Proof.
  intros Hp; split.
  - intros Hr. unfold toOpenAIChatCompletionMessage.
    destruct Hr as [-> | ->]; destruct Hp as [-> | ->]; reflexivity.
  - intros Hu Hm. unfold toOpenAIChatCompletionMessage.
    rewrite (toOpenAIRole_other _ Hu Hm); reflexivity.
Qed.

Example empty_model_turn :
  toOpenAIChatCompletionMessage {| role := Some (js "model"); parts := None |}
    = Throw (TypeError (js "type")).
Proof.
  apply (empty_turn_fails {| role := Some (js "model"); parts := None |}).
  - left; reflexivity.
  - right; reflexivity.
Qed.

(** C4, as stated, fails: a part without text after a first text part
    makes the translation throw, because every part goes through
    [toOpenAIPart] before the first one is picked. *)
Lemma later_part_causes_failure :
  toOpenAIChatCompletionMessage
    {| role := Some (js "user");
       parts := Some [ textPart (js "hi");
                       {| text := None; inlineData := None;
                          functionCall := Some (js "lookup");
                          functionResponse := None |} ] |}
  = Throw (Error (js "Unsupported part type")).
Proof. reflexivity. Qed.

(** C4, amended. For a turn with the role [user] or [model] whose first
    part is a text part: when every further part is a text part too, the
    message is produced and its content is the first part's text, however
    many parts follow; when some further part has no text, the call
    throws [Unsupported part type]. *)
Theorem first_text_part_is_the_content (c : Content) (r : OpenAIRole)
  (first : Part) (rest : list Part) (t : jsstring) :
  toOpenAIRole (role c) = Normal r ->
  parts c = Some (first :: rest) ->
  text first = Some t ->
  (Forall (fun p => text p <> None) rest ->
   toOpenAIChatCompletionMessage c
     = Normal {| msg_role := r; content := ContentString t |}) /\
  (Exists (fun p => text p = None) rest ->
   toOpenAIChatCompletionMessage c
     = Throw (Error (js "Unsupported part type"))).
Proof.
  intros Hr Hp Ht; split.
  - intros Hrest; eapply message_of_text_parts; eauto.
  - intros Hrest. unfold toOpenAIChatCompletionMessage.
    rewrite Hr, Hp; simpl. unfold toOpenAIPart at 1; rewrite Ht; simpl.
    rewrite (mapM_toOpenAIPart_other rest Hrest); reflexivity.
Qed.

Lemma first_text_part_is_the_content_witness :
  toOpenAIChatCompletionMessage
    {| role := Some (js "model");
       parts := Some [textPart (js "a"); textPart (js "b"); textPart (js "c")] |}
  = Normal {| msg_role := assistant; content := ContentString (js "a") |}.
Proof.
  apply (first_text_part_is_the_content
           {| role := Some (js "model");
              parts := Some [textPart (js "a"); textPart (js "b");
                             textPart (js "c")] |}
           assistant (textPart (js "a"))
           [textPart (js "b"); textPart (js "c")] (js "a")
           eq_refl eq_refl eq_refl).
  repeat constructor; discriminate.
Defined.

(** ** The two entry points *)

Lemma apiError_includes (response : Response) :
  exists message,
    apiError response = Error message /\
    includes message (numberToString (status response)) /\
    includes message (statusText response) /\
    includes message (responseText response).
Proof.
  eexists; split; [reflexivity|]. repeat split.
  - apply (includes_intro (js "OpenAI API error: ")).
  - exists (js "OpenAI API error: " ++ numberToString (status response) ++ js " "),
      (js " - " ++ responseText response).
    rewrite <- !app_assoc; reflexivity.
  - exists (js "OpenAI API error: " ++ numberToString (status response)
              ++ js " " ++ statusText response ++ js " - "), [].
    rewrite app_nil_r, <- !app_assoc; reflexivity.
Qed.

(** C9. When the backend answers a request with a status that is not OK,
    both [generateContent] and [generateContentStream] throw the same
    error and produce no response; its message holds the status code in
    decimal, the status text and the body text as they came. *)
Theorem non_ok_status_is_thrown (env : Env)
  (request : GenerateContentParameters)
  (msgs : list OpenAIChatCompletionMessageParam) (streaming : bool) :
  let response :=
    fetchAPI env {| model := modelName env; messages := msgs;
                    stream := streaming |} in
  mapM toOpenAIChatCompletionMessage (contents request) = Normal msgs ->
  ok response = false ->
  (if streaming
   then generateContentStream env request = Throw (apiError response)
   else generateContent env request = Throw (apiError response)) /\
  exists message,
    apiError response = Error message /\
    message = js "OpenAI API error: " ++ numberToString (status response)
                ++ js " " ++ statusText response
                ++ js " - " ++ responseText response /\
    includes message (numberToString (status response)) /\
    includes message (statusText response) /\
    includes message (responseText response).
Proof.
  intros response Hm Hok. split.
  - destruct streaming.
    + unfold generateContentStream. rewrite Hm; simpl.
      fold response. rewrite Hok; reflexivity.
    + unfold generateContent. rewrite Hm; simpl.
      fold response. rewrite Hok; reflexivity.
  - destruct (apiError_includes response) as [message [He Hi]].
    exists message; split; [exact He|]. split; [|exact Hi].
    unfold apiError in He; inversion He; reflexivity.
Qed.

Lemma non_ok_status_is_thrown_witness :
  (generateContent unauthorized helloRequest
     = Throw (Error (js "OpenAI API error: 401 Unauthorized - invalid key"))) /\
  (generateContentStream unauthorized helloRequest
     = Throw (Error (js "OpenAI API error: 401 Unauthorized - invalid key"))).
Proof.
  split.
  - apply (non_ok_status_is_thrown unauthorized helloRequest
             [ {| msg_role := user; content := ContentString (js "hello") |} ]
             false eq_refl eq_refl).
  - apply (non_ok_status_is_thrown unauthorized helloRequest
             [ {| msg_role := user; content := ContentString (js "hello") |} ]
             true eq_refl eq_refl).
Defined.

Lemma getProp_total (v : JsVal) (a b : jsstring) (w : JsVal) :
  getProp v a = Normal w -> exists u, getProp v b = Normal u.
Proof. destruct v; simpl; try discriminate; eauto. Qed.

Lemma orElse_string (t : jsstring) : orElse (JString t) (JString []) = JString t.
Proof. destruct t; reflexivity. Qed.

(** C2. A turn of a user or of the model with a single text part is
    translated to a message whose content is that text; and when the
    backend echoes the content of the message it was sent, the response
    [generateContent] builds has one candidate with one part, whose text
    is the text of the turn. *)
Theorem text_round_trip (env : Env) (request : GenerateContentParameters)
  (c : Content) (p : Part) (t : jsstring) :
  role c = Some (js "user") \/ role c = Some (js "model") ->
  parts c = Some [p] ->
  text p = Some t ->
  contents request = [c] ->
  (forall body m,
      messages body = [m] -> content m = ContentString t ->
      echoes (fetchAPI env body) t) ->
  exists m r,
    toOpenAIChatCompletionMessage c = Normal m /\
    content m = ContentString t /\
    generateContent env request = Normal r /\
    candidateTexts r = [JString t] /\
    List.length (candidates r) = 1%nat.
Proof.
  intros Hrole Hparts Htext Hreq Hecho.
  assert (Hr : exists o, toOpenAIRole (role c) = Normal o)
    by (destruct Hrole as [-> | ->]; eexists; reflexivity).
  destruct Hr as [o Hr].
  pose proof (message_of_text_parts c o p [] t Hr Hparts Htext (Forall_nil _))
    as Hm.
  set (m := {| msg_role := o; content := ContentString t |}) in *.
  destruct (Hecho {| model := modelName env; messages := [m]; stream := false |}
              m eq_refl eq_refl)
    as [Hok [data [choices [choice [message [Hparse [Hc [Hi [Hmsg Hcontent]]]]]]]]].
  destruct (getProp_total _ _ (js "index") _ Hmsg) as [idx Hidx].
  destruct (getProp_total _ _ (js "finish_reason") _ Hmsg) as [fin Hfin].
  exists m, (responseLiteral idx (JString t) fin).
  split; [exact Hm|]. split; [reflexivity|]. split.
  - unfold generateContent. rewrite Hreq; simpl. rewrite Hm; simpl.
    rewrite Hok; simpl. rewrite Hparse; simpl. rewrite Hc; simpl.
    rewrite Hi; simpl. rewrite Hmsg; simpl. rewrite Hidx; simpl.
    rewrite Hcontent; simpl. rewrite Hfin; reflexivity.
  - unfold candidateTexts; simpl. rewrite orElse_string; auto.
Qed.

Lemma text_round_trip_witness :
  exists m r,
    toOpenAIChatCompletionMessage
      {| role := Some (js "user"); parts := Some [textPart (js "hello")] |}
      = Normal m /\
    content m = ContentString (js "hello") /\
    generateContent echoHello helloRequest = Normal r /\
    candidateTexts r = [JString (js "hello")] /\
    List.length (candidates r) = 1%nat.
Proof.
  apply (text_round_trip echoHello helloRequest
           {| role := Some (js "user"); parts := Some [textPart (js "hello")] |}
           (textPart (js "hello")) (js "hello")).
  - left; reflexivity.
  - reflexivity.
  - reflexivity.
  - reflexivity.
  - intros body m _ _. split; [reflexivity|].
    do 4 eexists. vm_compute. repeat split; reflexivity.
Defined.

(** ** The fuel of the parser

    Every parser consumes what it accepts, so the calls nest no deeper
    than the fuel [JSON.parse] starts with. *)

Lemma skipSpace_length (s : jsstring) :
  (List.length (JSON.skipSpace s) <= List.length s)%nat.
Proof.
  induction s as [|c s IH]; simpl; [lia|].
  destruct (JSON.isSpace c); simpl; lia.
Qed.

Lemma stringBody_length (s acc str r : jsstring) :
  JSON.stringBody s acc = Some (str, r) ->
  (List.length r < List.length s)%nat.
Proof.
  remember (List.length s) as n eqn:Hn.
  assert (Hle : (List.length s <= n)%nat) by lia. clear Hn.
  revert s acc Hle. induction n as [|n IH]; intros s acc Hle.
  - destruct s; [discriminate | simpl in Hle; lia].
  - destruct s as [|c s1]; [discriminate|]. simpl in Hle. simpl.
    destruct (c =? 0x22).
    { intros H; inversion H; subst; simpl; lia. }
    destruct (c =? 0x5C).
    + destruct s1 as [|e s2]; [discriminate|].
      destruct (e =? 0x75).
      * destruct s2 as [|h1 [|h2 [|h3 [|h4 s3]]]]; try discriminate.
        destruct (JSON.hex4 h1 h2 h3 h4); [|discriminate].
        intros H. apply IH in H; simpl in *; lia.
      * destruct (JSON.escape e); [|discriminate].
        intros H. apply IH in H; simpl in *; lia.
    + destruct (c <? 0x20); [discriminate|].
      intros H. apply IH in H; simpl in *; lia.
Qed.

Lemma spanDigits_length (s : jsstring) :
  (List.length (snd (JSON.spanDigits s)) <= List.length s)%nat.
Proof.
  induction s as [|c s IH]; simpl; [lia|].
  destruct (JSON.isDigit c); simpl; [|lia].
  destruct (JSON.spanDigits s); simpl in *; lia.
Qed.

Lemma number_length (s : jsstring) (v : JsVal) (r : jsstring) :
  JSON.number s = Some (v, r) -> (List.length r < List.length s)%nat.
Proof.
  unfold JSON.number.
  set (p := match s with
            | c :: s' => if c =? 0x2D then (true, s') else (false, s)
            | [] => (false, [])
            end).
  assert (Hp : (List.length (snd p) <= List.length s)%nat).
  { subst p. destruct s as [|c s']; simpl; [lia|].
    destruct (c =? 0x2D); simpl; lia. }
  destruct p as [negative s1]; simpl in Hp.
  destruct (JSON.intPart s1) as [[ds s2]|] eqn:Hi; [|discriminate].
  assert (H2 : (List.length s2 < List.length s1)%nat).
  { unfold JSON.intPart in Hi. destruct s1 as [|c s']; [discriminate|].
    destruct (c =? 0x30); [inversion Hi; subst; simpl; lia|].
    destruct (JSON.isDigit c) eqn:Hd; [|discriminate].
    simpl in Hi. rewrite Hd in Hi.
    pose proof (spanDigits_length s') as Hs.
    destruct (JSON.spanDigits s'); inversion Hi; subst; simpl in *; lia. }
  destruct (JSON.fracPart s2) as [[fs s3]|] eqn:Hf; [|discriminate].
  assert (H3 : (List.length s3 <= List.length s2)%nat).
  { unfold JSON.fracPart in Hf. destruct s2 as [|c s']; [inversion Hf; simpl; lia|].
    destruct (c =? 0x2E); [|inversion Hf; subst; simpl; lia].
    pose proof (spanDigits_length s') as Hs.
    destruct (JSON.spanDigits s') as [[|d ds'] r']; [discriminate|].
    inversion Hf; subst; simpl in *; lia. }
  destruct (JSON.expPart s3) as [[e s4]|] eqn:He; [|discriminate].
  assert (H4 : (List.length s4 <= List.length s3)%nat).
  { unfold JSON.expPart in He. destruct s3 as [|c s']; [inversion He; simpl; lia|].
    destruct ((c =? 0x65) || (c =? 0x45)); [|inversion He; subst; simpl; lia].
    unfold JSON.signedDigits in He.
    destruct s' as [|c0 s'0].
    - simpl in He. discriminate.
    - destruct (c0 =? 0x2D); [|destruct (c0 =? 0x2B)];
        match type of He with
        | match JSON.spanDigits ?x with _ => _ end = _ =>
            pose proof (spanDigits_length x) as Hx;
            destruct (JSON.spanDigits x) as [[|d ds'] r']; [discriminate|];
            inversion He; subst; simpl in *; lia
        end. }
  intros H; inversion H; subst. lia.
Qed.

Lemma literal_rest_length (n : nat) (c : N) (s : jsstring) :
  (List.length (skipn (S n) (c :: s)) < List.length (c :: s))%nat.
Proof. rewrite length_skipn. simpl. lia. Qed.

Lemma value_consumes (fuel : nat) :
  (forall s v r, JSON.value fuel s = Some (v, r) ->
                 (List.length r < List.length s)%nat) /\
  (forall s acc v r, JSON.elements fuel s acc = Some (v, r) ->
                     (List.length r < List.length s)%nat) /\
  (forall s acc v r, JSON.members fuel s acc = Some (v, r) ->
                     (List.length r < List.length s)%nat).
Proof.
  induction fuel as [|fuel [IHv [IHe IHm]]];
    [repeat split; intros; discriminate|].
  split; [|split].
  - intros s v r. cbn [JSON.value].
    pose proof (skipSpace_length s) as Hs.
    destruct (JSON.skipSpace s) as [|c s'] eqn:Es; [discriminate|].
    simpl in Hs. pose proof (skipSpace_length s') as Hs'.
    destruct (c =? 0x7B).
    { destruct (JSON.skipSpace s') as [|c2 s2]; [discriminate|].
      destruct (c2 =? 0x7D).
      - intros H; inversion H; subst; simpl in *; lia.
      - intros H; apply IHm in H; lia. }
    destruct (c =? 0x5B).
    { destruct (JSON.skipSpace s') as [|c2 s2]; [discriminate|].
      destruct (c2 =? 0x5D).
      - intros H; inversion H; subst; simpl in *; lia.
      - intros H; apply IHe in H; lia. }
    destruct (c =? 0x22).
    { destruct (JSON.stringBody s' []) as [[str r0]|] eqn:Eb; [|discriminate].
      apply stringBody_length in Eb.
      intros H; inversion H; subst; lia. }
    destruct (startsWith (c :: s') (js "true")).
    { intros H; inversion H; subst.
      pose proof (literal_rest_length 3 c s'); simpl in *; lia. }
    destruct (startsWith (c :: s') (js "false")).
    { intros H; inversion H; subst.
      pose proof (literal_rest_length 4 c s'); simpl in *; lia. }
    destruct (startsWith (c :: s') (js "null")).
    { intros H; inversion H; subst.
      pose proof (literal_rest_length 3 c s'); simpl in *; lia. }
    intros H; apply number_length in H; simpl in *; lia.
  - intros s acc v r. cbn [JSON.elements].
    destruct (JSON.value fuel s) as [[v0 r0]|] eqn:Ev; [|discriminate].
    apply IHv in Ev. pose proof (skipSpace_length r0) as Hs.
    destruct (JSON.skipSpace r0) as [|c r']; [discriminate|]. simpl in Hs.
    destruct (c =? 0x2C); [intros H; apply IHe in H; lia|].
    destruct (c =? 0x5D); [|discriminate].
    intros H; inversion H; subst; lia.
  - intros s acc v r. cbn [JSON.members].
    pose proof (skipSpace_length s) as Hs.
    destruct (JSON.skipSpace s) as [|q s1]; [discriminate|]. simpl in Hs.
    destruct (q =? 0x22); [|discriminate].
    destruct (JSON.stringBody s1 []) as [[k s2]|] eqn:Eb; [|discriminate].
    apply stringBody_length in Eb. pose proof (skipSpace_length s2) as Hs2.
    destruct (JSON.skipSpace s2) as [|colon s3]; [discriminate|]. simpl in Hs2.
    destruct (colon =? 0x3A); [|discriminate].
    destruct (JSON.value fuel s3) as [[v0 r0]|] eqn:Ev; [|discriminate].
    apply IHv in Ev. pose proof (skipSpace_length r0) as Hs3.
    destruct (JSON.skipSpace r0) as [|c r']; [discriminate|]. simpl in Hs3.
    destruct (c =? 0x2C); [intros H; apply IHm in H; lia|].
    destruct (c =? 0x7D); [|discriminate].
    intros H; inversion H; subst; lia.
Qed.

Lemma value_fuel (f1 : nat) :
  (forall f2 s,
      (2 * List.length s + 1 <= f1)%nat -> (2 * List.length s + 1 <= f2)%nat ->
      JSON.value f1 s = JSON.value f2 s) /\
  (forall f2 s acc,
      (2 * List.length s + 2 <= f1)%nat -> (2 * List.length s + 2 <= f2)%nat ->
      JSON.elements f1 s acc = JSON.elements f2 s acc) /\
  (forall f2 s acc,
      (2 * List.length s + 2 <= f1)%nat -> (2 * List.length s + 2 <= f2)%nat ->
      JSON.members f1 s acc = JSON.members f2 s acc).
Proof.
  induction f1 as [|f1 [IHv [IHe IHm]]]; [repeat split; intros; lia|].
  split; [|split].
  - intros [|f2] s H1 H2; [lia|]. cbn [JSON.value].
    pose proof (skipSpace_length s) as Hs.
    destruct (JSON.skipSpace s) as [|c s'] eqn:Es; [reflexivity|].
    simpl in Hs.
    rewrite (IHm f2 s' []) by lia. rewrite (IHe f2 s' []) by lia.
    reflexivity.
  - intros [|f2] s acc H1 H2; [lia|]. cbn [JSON.elements].
    rewrite (IHv f2 s) by lia.
    destruct (JSON.value f2 s) as [[v0 r0]|] eqn:Ev; [|reflexivity].
    apply (proj1 (value_consumes f2)) in Ev.
    pose proof (skipSpace_length r0) as Hs.
    destruct (JSON.skipSpace r0) as [|c r']; [reflexivity|]. simpl in Hs.
    rewrite (IHe f2 r') by lia. reflexivity.
  - intros [|f2] s acc H1 H2; [lia|]. cbn [JSON.members].
    pose proof (skipSpace_length s) as Hs.
    destruct (JSON.skipSpace s) as [|q s1]; [reflexivity|]. simpl in Hs.
    destruct (q =? 0x22); [|reflexivity].
    destruct (JSON.stringBody s1 []) as [[k s2]|] eqn:Eb; [|reflexivity].
    apply stringBody_length in Eb. pose proof (skipSpace_length s2) as Hs2.
    destruct (JSON.skipSpace s2) as [|colon s3]; [reflexivity|]. simpl in Hs2.
    destruct (colon =? 0x3A); [|reflexivity].
    rewrite (IHv f2 s3) by lia.
    destruct (JSON.value f2 s3) as [[v0 r0]|] eqn:Ev; [|reflexivity].
    apply (proj1 (value_consumes f2)) in Ev.
    pose proof (skipSpace_length r0) as Hs3.
    destruct (JSON.skipSpace r0) as [|c r']; [reflexivity|]. simpl in Hs3.
    rewrite (IHm f2 r') by lia. reflexivity.
Qed.

(** More fuel than [JSON.parse] gives never changes what is parsed. *)
Lemma parse_fuel (text : jsstring) (extra : nat) :
  JSON.value (2 * List.length text + 2 + extra) text
  = JSON.value (2 * List.length text + 2) text.
Proof. apply (proj1 (value_fuel _)); lia. Qed.

(** ** Lines and the held-back buffer *)

Lemma split_nonempty (sep : N) (s : jsstring) : split sep s <> [].
Proof.
  destruct s as [|c s]; simpl; [discriminate|].
  destruct (c =? sep); [discriminate|].
  destruct (split sep s); discriminate.
Qed.

Lemma popOrEmpty_cons (x y : jsstring) (a : list jsstring) :
  popOrEmpty (x :: y :: a)
  = (x :: fst (popOrEmpty (y :: a)), snd (popOrEmpty (y :: a))).
Proof.
  unfold popOrEmpty. change (pop (x :: y :: a))
    with (let (front, last) := pop (y :: a) in (x :: front, last)).
  destruct (pop (y :: a)) as [front last]; reflexivity.
Qed.

Lemma popOrEmpty_single (x : jsstring) : popOrEmpty [x] = ([], x).
Proof. destruct x; reflexivity. Qed.

(** [split] followed by [pop() || ''] is [cut]. *)
Lemma popOrEmpty_split (s : jsstring) : popOrEmpty (split 0x0A s) = cut s.
Proof.
  induction s as [|c s IH]; [reflexivity|]. simpl.
  pose proof (split_nonempty 0x0A s) as Hne.
  destruct (split 0x0A s) as [|piece pieces]; [contradiction|].
  destruct (c =? 0x0A).
  - rewrite popOrEmpty_cons, IH. destruct (cut s); reflexivity.
  - destruct pieces as [|q qs].
    + rewrite popOrEmpty_single in IH. rewrite popOrEmpty_single, <- IH.
      reflexivity.
    + rewrite popOrEmpty_cons in IH. rewrite popOrEmpty_cons, <- IH.
      reflexivity.
Qed.

Lemma cut_app (a b : jsstring) :
  cut (a ++ b)
  = (fst (cut a) ++ fst (cut (snd (cut a) ++ b)),
     snd (cut (snd (cut a) ++ b))).
Proof.
  induction a as [|c a IH]; simpl.
  - destruct (cut b); reflexivity.
  - rewrite IH. destruct (cut a) as [la ra]; simpl.
    destruct (c =? 0x0A) eqn:E; [reflexivity|].
    destruct la as [|l la]; simpl.
    + destruct (cut (ra ++ b)) as [lb rb]; simpl. rewrite E.
      destruct lb; reflexivity.
    + reflexivity.
Qed.

Lemma cut_newlineFree (s : jsstring) : newlineFree s -> cut s = ([], s).
Proof.
  unfold newlineFree. induction s as [|c s IH]; intros H; [reflexivity|].
  simpl. rewrite IH by (intros Hin; apply H; right; exact Hin).
  destruct (N.eqb_spec c 0x0A) as [->|_]; [|reflexivity].
  exfalso; apply H; left; reflexivity.
Qed.

Lemma cut_rest_newlineFree (s : jsstring) : newlineFree (snd (cut s)).
Proof.
  unfold newlineFree. induction s as [|c s IH]; simpl; [tauto|].
  destruct (cut s) as [ls r]; simpl in *.
  destruct (N.eqb_spec c 0x0A) as [->|Hc]; [exact IH|].
  destruct ls; simpl; [|exact IH].
  intros [H|H]; [congruence | contradiction].
Qed.

Lemma cut_lines_newlineFree (s : jsstring) : Forall newlineFree (fst (cut s)).
Proof.
  induction s as [|c s IH]; simpl; [constructor|].
  destruct (cut s) as [ls r]; simpl in *.
  destruct (N.eqb_spec c 0x0A) as [->|Hc].
  - constructor; [intros []|exact IH].
  - destruct ls as [|l ls]; simpl; [constructor|].
    inversion IH as [|? ? Hl Hls]; subst. constructor; [|exact Hls].
    intros [H|H]; [congruence | contradiction].
Qed.

(** The text is the complete lines, each with its newline, then the
    held-back rest. *)
Lemma cut_joinLines (s : jsstring) :
  s = joinLines (fst (cut s)) ++ snd (cut s).
Proof.
  induction s as [|c s IH]; [reflexivity|]. simpl.
  destruct (cut s) as [ls r]; simpl in *.
  destruct (N.eqb_spec c 0x0A) as [->|Hc]; simpl; [congruence|].
  destruct ls as [|l ls]; simpl in *; congruence.
Qed.

Lemma cut_line (l s : jsstring) :
  newlineFree l ->
  cut (l ++ 0x0A :: s) = (l :: fst (cut s), snd (cut s)).
Proof.
  unfold newlineFree. induction l as [|c l IH]; intros H; simpl.
  - destruct (cut s); reflexivity.
  - rewrite IH by (intros Hin; apply H; right; exact Hin).
    destruct (N.eqb_spec c 0x0A) as [->|_]; [|reflexivity].
    exfalso; apply H; left; reflexivity.
Qed.

Lemma cut_of_joinLines (lines : list jsstring) (partial : jsstring) :
  Forall newlineFree lines -> newlineFree partial ->
  cut (joinLines lines ++ partial) = (lines, partial).
Proof.
  intros Hl Hp. induction Hl as [|l lines Hnl _ IH]; simpl.
  - apply cut_newlineFree; exact Hp.
  - rewrite <- app_assoc; simpl. rewrite (cut_line l _ Hnl), IH; reflexivity.
Qed.

(** ** The loop over the lines *)

Lemma processLines_app (l1 l2 : list jsstring) :
  processLines (l1 ++ l2)
  = if snd (processLines l1) then (fst (processLines l1), true)
    else (fst (processLines l1) ++ fst (processLines l2),
          snd (processLines l2)).
Proof.
  induction l1 as [|line l1 IH]; simpl.
  - destruct (processLines l2); reflexivity.
  - destruct (processLine line); simpl; [exact IH | | reflexivity].
    rewrite IH. destruct (processLines l1) as [es r]; simpl.
    destruct r; [reflexivity|]. destruct (processLines l2); reflexivity.
Qed.

Lemma processLines_filter (lines : list jsstring) :
  processLines lines = processLines (filter isDataLine lines).
Proof.
  induction lines as [|line lines IH]; [reflexivity|]. simpl.
  destruct (isDataLine line) eqn:E; simpl.
  - rewrite IH; reflexivity.
  - unfold processLine. unfold isDataLine in E. rewrite E. exact IH.
Qed.

Lemma startsWith_app (p s : jsstring) : startsWith (p ++ s) p = true.
Proof.
  induction p as [|x p IH]; simpl; [destruct s; reflexivity|].
  rewrite N.eqb_refl; exact IH.
Qed.

Lemma processLine_dataLine (data : jsstring) :
  processLine (dataLine data)
  = if jsstring_eqb (trim data) (js "[DONE]") then Returned
    else match deltaResponse data with
         | Normal r => Emitted (Yield r)
         | Throw e => Emitted (ConsoleError e)
         end.
Proof.
  unfold processLine, dataLine. rewrite startsWith_app. reflexivity.
Qed.

(** ** The decoder and the chunks *)

Lemma decode_app (st : TextDecoder.state) (a b : list byte) :
  TextDecoder.decode st (a ++ b)
  = (fst (TextDecoder.decode (fst (TextDecoder.decode st a)) b),
     snd (TextDecoder.decode st a)
       ++ snd (TextDecoder.decode (fst (TextDecoder.decode st a)) b)).
Proof.
  revert st; induction a as [|x a IH]; intros st; simpl.
  - destruct (TextDecoder.decode st b); reflexivity.
  - destruct (TextDecoder.step st x) as [st1 out1]. rewrite IH.
    destruct (TextDecoder.decode st1 a) as [st2 out2]; simpl.
    destruct (TextDecoder.decode st2 b) as [st3 out3]; simpl.
    rewrite app_assoc; reflexivity.
Qed.

Lemma onChunk_eq (st : GeneratorState) (value : list byte) :
  onChunk st value
  = ({| decoder := fst (TextDecoder.decode (decoder st) value);
        buffer :=
          snd (cut (buffer st ++ snd (TextDecoder.decode (decoder st) value))) |},
     processLines
       (fst (cut (buffer st ++ snd (TextDecoder.decode (decoder st) value))))).
Proof.
  unfold onChunk. destruct (TextDecoder.decode (decoder st) value) as [dec txt].
  rewrite popOrEmpty_split. simpl. destruct (cut (buffer st ++ txt)); reflexivity.
Qed.

Lemma onChunk_buffer_newlineFree (st : GeneratorState) (value : list byte) :
  newlineFree (buffer (fst (onChunk st value))).
Proof. rewrite onChunk_eq; simpl. apply cut_rest_newlineFree. Qed.

Lemma onChunk_app (st : GeneratorState) (a b : list byte) :
  onChunk st (a ++ b)
  = (fst (onChunk (fst (onChunk st a)) b),
     if snd (snd (onChunk st a)) then (fst (snd (onChunk st a)), true)
     else (fst (snd (onChunk st a)) ++ fst (snd (onChunk (fst (onChunk st a)) b)),
           snd (snd (onChunk (fst (onChunk st a)) b)))).
Proof.
  rewrite !onChunk_eq; simpl. rewrite decode_app; simpl.
  rewrite app_assoc, cut_app; simpl. rewrite processLines_app.
  reflexivity.
Qed.

Lemma generatorLoop_cons (st : GeneratorState) (value : list byte)
  (chunks : list (list byte)) :
  generatorLoop st (value :: chunks)
  = if snd (snd (onChunk st value))
    then (fst (snd (onChunk st value)), ReturnedOnDone)
    else (fst (snd (onChunk st value))
            ++ fst (generatorLoop (fst (onChunk st value)) chunks),
          snd (generatorLoop (fst (onChunk st value)) chunks)).
Proof.
  simpl. destruct (onChunk st value) as [st' [es returned]]; simpl.
  destruct returned; [reflexivity|].
  destruct (generatorLoop st' chunks); reflexivity.
Qed.

Lemma generatorLoop_two (st : GeneratorState) (a b : list byte)
  (chunks : list (list byte)) :
  generatorLoop st ((a ++ b) :: chunks) = generatorLoop st (a :: b :: chunks).
Proof.
  rewrite (generatorLoop_cons st (a ++ b)), (generatorLoop_cons st a),
    (generatorLoop_cons (fst (onChunk st a)) b), onChunk_app; simpl.
  destruct (snd (snd (onChunk st a))); simpl; [reflexivity|].
  destruct (snd (snd (onChunk (fst (onChunk st a)) b))); simpl; [reflexivity|].
  rewrite app_assoc; reflexivity.
Qed.

Lemma generatorLoop_empty_chunk (st : GeneratorState) :
  newlineFree (buffer st) -> generatorLoop st [[]] = generatorLoop st [].
Proof.
  intros H. rewrite generatorLoop_cons, onChunk_eq; simpl.
  rewrite app_nil_r, (cut_newlineFree _ H); reflexivity.
Qed.

(** Any way of cutting the bytes into chunks is the same to the
    generator as the bytes in one chunk. *)
Lemma generatorLoop_concat (st : GeneratorState) (chunks : list (list byte)) :
  newlineFree (buffer st) ->
  generatorLoop st chunks = generatorLoop st [List.concat chunks].
Proof.
  revert st; induction chunks as [|c chunks IH]; intros st H.
  - symmetry; apply generatorLoop_empty_chunk; exact H.
  - change (List.concat (c :: chunks)) with (c ++ List.concat chunks).
    rewrite generatorLoop_two, (generatorLoop_cons st c),
      (generatorLoop_cons st c [List.concat chunks]).
    rewrite (IH _ (onChunk_buffer_newlineFree st c)); reflexivity.
Qed.

Lemma generator_runLines (chunks : list (list byte))
  (lines : list jsstring) (partial : jsstring) :
  Forall newlineFree lines -> newlineFree partial ->
  streamText chunks = joinLines lines ++ partial ->
  generator chunks = runLines lines.
Proof.
  intros Hl Hp Ht. unfold generator.
  rewrite generatorLoop_concat by (intros []).
  rewrite generatorLoop_cons, onChunk_eq; simpl.
  unfold streamText in Ht. rewrite Ht, (cut_of_joinLines _ _ Hl Hp); simpl.
  unfold runLines. destruct (processLines lines) as [es r]; simpl.
  destruct r; [reflexivity|]. rewrite app_nil_r; reflexivity.
Qed.

(** C1. However the bytes of a stream are cut into chunks (in the middle
    of a line, of a multi-byte character, with empty chunks), the
    generator does what it does on the same bytes in one chunk: the same
    events in the same order, hence the same responses, and the same
    ending.  No condition on the bytes is needed. *)
Theorem chunking_is_invisible (chunks : list (list byte)) :
  generator chunks = generator [List.concat chunks] /\
  yields (fst (generator chunks))
    = yields (fst (generator [List.concat chunks])).
Proof.
  assert (H : generator chunks = generator [List.concat chunks])
    by (apply generatorLoop_concat; intros []).
  split; [exact H | rewrite H; reflexivity].
Qed.

(** A delta whose text ends in a two-byte character, with the chunk
    boundary between the two bytes. *)
Example split_inside_a_character :
  List.map candidateTexts
    (yields (fst (generator
       [ wire "data: {'choices':[{'delta':{'content':'caf" ++ [xc3];
         [xa9] ++ wire "'}}]}|data: [DONE]|" ])))
  = [[JString (js "caf" ++ [0xE9])]].
Proof. vm_compute; reflexivity. Qed.

(** ** The terminator is not JSON *)

Lemma trimStart_decomp (s : jsstring) :
  exists ws, s = ws ++ trimStart s /\ Forall (fun c => isWhiteSpace c = true) ws.
Proof.
  induction s as [|c s [ws [Hs Hws]]]; simpl.
  - exists []; split; [reflexivity|constructor].
  - destruct (isWhiteSpace c) eqn:E.
    + exists (c :: ws); split; [simpl; congruence | constructor; assumption].
    + exists []; split; [reflexivity|constructor].
Qed.

Lemma trim_terminator (data : jsstring) :
  trim data = js "[DONE]" ->
  exists ws rest,
    data = ws ++ 0x5B :: 0x44 :: rest /\
    Forall (fun c => isWhiteSpace c = true) ws.
Proof.
  unfold trim, trimEnd. intros H.
  destruct (trimStart_decomp data) as [ws [Hd Hws]].
  destruct (trimStart_decomp (rev (trimStart data))) as [ws' [Hr _]].
  apply (f_equal (@rev N)) in H. rewrite rev_involutive in H.
  rewrite H in Hr. apply (f_equal (@rev N)) in Hr.
  rewrite rev_involutive, rev_app_distr in Hr.
  exists ws, (js "ONE]" ++ rev ws'). split; [|exact Hws].
  rewrite Hd at 1. rewrite Hr. reflexivity.
Qed.

Lemma value_skips_space (fuel : nat) (c : N) (s : jsstring) :
  JSON.isSpace c = true -> JSON.value fuel (c :: s) = JSON.value fuel s.
Proof.
  intros H. destruct fuel as [|fuel]; [reflexivity|].
  simpl. rewrite H. reflexivity.
Qed.

Lemma startsWith_head (c x : N) (s p : jsstring) :
  (c =? x) = false -> startsWith (c :: s) (x :: p) = false.
Proof. intros H; simpl. rewrite N.eqb_sym, H; reflexivity. Qed.

Lemma value_no_start (fuel : nat) (c : N) (s : jsstring) :
  JSON.isSpace c = false ->
  c <> 0x7B -> c <> 0x5B -> c <> 0x22 -> c <> 0x74 -> c <> 0x66 ->
  c <> 0x6E -> c <> 0x2D -> JSON.isDigit c = false ->
  JSON.value fuel (c :: s) = None.
Proof.
  intros Hsp H1 H2 H3 H4 H5 H6 H7 Hd.
  destruct fuel as [|fuel]; [reflexivity|].
  apply N.eqb_neq in H1, H2, H3, H4, H5, H6, H7.
  cbn [JSON.value JSON.skipSpace]. rewrite Hsp, H1, H2, H3.
  change (js "true") with (0x74 :: js "rue").
  change (js "false") with (0x66 :: js "alse").
  change (js "null") with (0x6E :: js "ull").
  rewrite !startsWith_head by assumption.
  unfold JSON.number. rewrite H7. unfold JSON.intPart.
  assert (H0 : (c =? 0x30) = false).
  { apply N.eqb_neq; intros ->; discriminate Hd. }
  rewrite H0, Hd. reflexivity.
Qed.

Lemma whiteSpace_no_start (c : N) :
  isWhiteSpace c = true -> JSON.isSpace c = false ->
  c <> 0x7B /\ c <> 0x5B /\ c <> 0x22 /\ c <> 0x74 /\ c <> 0x66 /\
  c <> 0x6E /\ c <> 0x2D /\ JSON.isDigit c = false.
Proof.
  unfold isWhiteSpace, JSON.isSpace, JSON.isDigit.
  rewrite !orb_true_iff, !orb_false_iff, !andb_true_iff, !N.eqb_eq,
    !N.eqb_neq, !N.leb_le.
  intros Hw Hs.
  assert (Hc : 0x0B <= c /\ c <> 0x0D /\ c <> 0x20
               /\ (c <= 0x0C \/ 0xA0 <= c)) by lia.
  repeat split; try lia.
  apply andb_false_iff. rewrite !N.leb_gt. lia.
Qed.

Lemma value_terminator (fuel : nat) (ws rest : jsstring) :
  Forall (fun c => isWhiteSpace c = true) ws ->
  JSON.value fuel (ws ++ 0x5B :: 0x44 :: rest) = None.
Proof.
  induction 1 as [|c ws Hc _ IH]; simpl app.
  - destruct fuel as [|[|[|fuel]]]; reflexivity.
  - destruct (JSON.isSpace c) eqn:E.
    + rewrite value_skips_space by exact E. exact IH.
    + destruct (whiteSpace_no_start c Hc E)
        as [H1 [H2 [H3 [H4 [H5 [H6 [H7 H8]]]]]]].
      apply value_no_start; assumption.
Qed.

(** A payload the decoder takes for the terminator is no JSON text: a
    payload that parses is never mistaken for it. *)
Lemma parse_terminator (data : jsstring) :
  trim data = js "[DONE]" -> JSON.parse data = Throw SyntaxError.
Proof.
  intros H. destruct (trim_terminator data H) as [ws [rest [-> Hws]]].
  unfold JSON.parse. rewrite value_terminator by exact Hws. reflexivity.
Qed.

Lemma parsed_is_not_terminator (data : jsstring) (v : JsVal) :
  JSON.parse data = Normal v ->
  jsstring_eqb (trim data) (js "[DONE]") = false.
Proof.
  intros Hp. apply jsstring_eqb_neq. intros Ht.
  rewrite (parse_terminator data Ht) in Hp. discriminate.
Qed.

(** ** Payloads *)

Lemma deltaResponse_carries (data t : jsstring) :
  carries (js "delta") data t ->
  exists r,
    deltaResponse data = Normal r /\
    candidateTexts r = [JString t] /\
    List.length (candidates r) = 1%nat.
Proof.
  intros [part [choices [choice [delta [Hp [Hc [Hi [Hd Ht]]]]]]]].
  destruct (getProp_total _ _ (js "index") _ Hd) as [idx Hidx].
  destruct (getProp_total _ _ (js "finish_reason") _ Hd) as [fin Hfin].
  exists (responseLiteral idx (JString t) fin). split.
  - unfold deltaResponse. rewrite Hp; simpl. rewrite Hc; simpl.
    rewrite Hi; simpl. rewrite Hd; simpl. rewrite Hidx; simpl.
    rewrite Ht; simpl. rewrite Hfin; reflexivity.
  - unfold candidateTexts; simpl. rewrite orElse_string; auto.
Qed.

Lemma deltaResponse_parsed (data : jsstring) (r : GenerateContentResponse) :
  deltaResponse data = Normal r -> exists v, JSON.parse data = Normal v.
Proof.
  unfold deltaResponse. destruct (JSON.parse data) as [v|e]; [eauto|discriminate].
Qed.

Lemma processLine_yield (data : jsstring) (r : GenerateContentResponse) :
  deltaResponse data = Normal r ->
  processLine (dataLine data) = Emitted (Yield r).
Proof.
  intros H. destruct (deltaResponse_parsed data r H) as [v Hv].
  rewrite processLine_dataLine, (parsed_is_not_terminator data v Hv), H.
  reflexivity.
Qed.

Lemma processLine_unparsable (data : jsstring) (e : JsError) :
  JSON.parse data = Throw e -> trim data <> js "[DONE]" ->
  processLine (dataLine data) = Emitted (ConsoleError e).
Proof.
  intros Hp Ht. rewrite processLine_dataLine, (jsstring_eqb_neq _ _ Ht).
  unfold deltaResponse. rewrite Hp. reflexivity.
Qed.


Lemma runLines_terminated (lines after : list jsstring) (es : list Event) :
  processLines lines = (es, true) ->
  runLines (lines ++ after) = (es, ReturnedOnDone).
Proof.
  intros H. unfold runLines. rewrite processLines_app, H. reflexivity.
Qed.

Lemma newlineFree_forallb (s : jsstring) :
  forallb (fun c => negb (c =? 0x0A)) s = true -> newlineFree s.
Proof.
  unfold newlineFree. induction s as [|c s IH]; simpl; [tauto|].
  rewrite andb_true_iff, negb_true_iff, N.eqb_neq.
  intros [Hc Hs] [H|H]; [congruence | exact (IH Hs H)].
Qed.

Lemma linesNewlineFree_forallb (lines : list jsstring) :
  forallb (forallb (fun c => negb (c =? 0x0A))) lines = true ->
  Forall newlineFree lines.
Proof.
  induction lines as [|l lines IH]; simpl; [constructor|].
  rewrite andb_true_iff. intros [Hl Hs].
  constructor; [apply newlineFree_forallb; exact Hl | exact (IH Hs)].
Qed.

(** C7. A stream whose data lines are a delta with the content [Hel], a
    delta with the content [lo] and the terminator, in whatever chunks it
    comes and whatever other lines stand between or after them, makes the
    generator yield two responses, with the texts [Hel] and [lo] in this
    order, and return.  In general the generator returns at the
    terminator: the lines after it in the chunk are not processed, and no
    later chunk is read. *)
Theorem hel_lo_then_terminator (chunks : list (list byte))
  (lines after : list jsstring) (partial d1 d2 done : jsstring) :
  streamText chunks = joinLines (lines ++ after) ++ partial ->
  Forall newlineFree (lines ++ after) -> newlineFree partial ->
  filter isDataLine lines = [dataLine d1; dataLine d2; done] ->
  isTerminator done ->
  carries (js "delta") d1 (js "Hel") ->
  carries (js "delta") d2 (js "lo") ->
  (exists r1 r2,
      generator chunks = ([Yield r1; Yield r2], ReturnedOnDone) /\
      candidateTexts r1 = [JString (js "Hel")] /\
      candidateTexts r2 = [JString (js "lo")]) /\
  (forall (before : list jsstring) (line : jsstring) (rest : list jsstring),
      isTerminator line ->
      processLines (before ++ line :: rest)
        = (fst (processLines before), true)) /\
  (forall (st : GeneratorState) (value : list byte) (more : list (list byte)),
      snd (snd (onChunk st value)) = true ->
      generatorLoop st (value :: more)
        = (fst (snd (onChunk st value)), ReturnedOnDone)).
Proof.
  intros Ht Hl Hp Hf Hdone H1 H2. repeat split.
  - destruct (deltaResponse_carries d1 _ H1) as [r1 [Hr1 [Ht1 _]]].
    destruct (deltaResponse_carries d2 _ H2) as [r2 [Hr2 [Ht2 _]]].
    exists r1, r2. split; [|split; assumption].
    rewrite (generator_runLines chunks _ _ Hl Hp Ht).
    apply runLines_terminated.
    rewrite processLines_filter, Hf. simpl.
    rewrite (processLine_yield d1 r1 Hr1), (processLine_yield d2 r2 Hr2).
    unfold isTerminator in Hdone. rewrite Hdone. reflexivity.
  - intros before line rest Hline. rewrite processLines_app. simpl.
    unfold isTerminator in Hline. rewrite Hline.
    destruct (processLines before) as [es r]; simpl.
    destruct r; [reflexivity | rewrite app_nil_r; reflexivity].
  - intros st value more H. rewrite generatorLoop_cons, H. reflexivity.
Qed.

(** C6. A stream whose data lines are a valid delta, a payload that
    [JSON.parse] rejects, a second valid delta and the terminator makes
    the generator yield the responses of the two deltas, in order: the
    rejected line is reported on the console and yields nothing, and the
    generator goes on to the next line. *)
Theorem malformed_line_is_skipped (chunks : list (list byte))
  (lines after : list jsstring) (partial d1 bad d2 done : jsstring)
  (r1 r2 : GenerateContentResponse) (e : JsError) :
  streamText chunks = joinLines (lines ++ after) ++ partial ->
  Forall newlineFree (lines ++ after) -> newlineFree partial ->
  filter isDataLine lines = [dataLine d1; dataLine bad; dataLine d2; done] ->
  isTerminator done ->
  deltaResponse d1 = Normal r1 ->
  deltaResponse d2 = Normal r2 ->
  JSON.parse bad = Throw e -> trim bad <> js "[DONE]" ->
  generator chunks = ([Yield r1; ConsoleError e; Yield r2], ReturnedOnDone) /\
  yields (fst (generator chunks)) = [r1; r2].
Proof.
  intros Ht Hl Hp Hf Hdone H1 H2 Hbad Hnot.
  assert (H : generator chunks
              = ([Yield r1; ConsoleError e; Yield r2], ReturnedOnDone)).
  { rewrite (generator_runLines chunks _ _ Hl Hp Ht).
    apply runLines_terminated.
    rewrite processLines_filter, Hf. simpl.
    rewrite (processLine_yield d1 r1 H1), (processLine_yield d2 r2 H2),
      (processLine_unparsable bad e Hbad Hnot).
    unfold isTerminator in Hdone. rewrite Hdone. reflexivity. }
  split; [exact H | rewrite H; reflexivity].
Qed.

(** C8. After each chunk the buffer and the new text are cut into the
    lines a newline closes, which are the only ones processed, and a rest
    without newline, which is the new buffer; when the reader is done the
    generator ends without touching the buffer.  So for a stream that is
    some complete lines followed by a piece with no newline, what the
    generator does is decided by the complete lines alone, and it ends
    normally when none of them is the terminator. *)
Theorem partial_line_is_held_back (st : GeneratorState) (value : list byte)
  (chunks : list (list byte)) (lines : list jsstring) (partial : jsstring) :
  streamText chunks = joinLines lines ++ partial ->
  Forall newlineFree lines -> newlineFree partial ->
  (exists complete,
      buffer st ++ snd (TextDecoder.decode (decoder st) value)
        = joinLines complete ++ buffer (fst (onChunk st value)) /\
      Forall newlineFree complete /\
      newlineFree (buffer (fst (onChunk st value))) /\
      snd (onChunk st value) = processLines complete) /\
  generatorLoop st [] = ([], ReaderDone) /\
  generator chunks = runLines lines /\
  (snd (processLines lines) = false ->
   generator chunks = (fst (processLines lines), ReaderDone)).
Proof.
  intros Ht Hl Hp. split; [|split; [reflexivity|split]].
  - exists (fst (cut (buffer st ++ snd (TextDecoder.decode (decoder st) value)))).
    rewrite onChunk_eq; simpl.
    split; [apply cut_joinLines|].
    split; [apply cut_lines_newlineFree|].
    split; [apply cut_rest_newlineFree | reflexivity].
  - exact (generator_runLines chunks lines partial Hl Hp Ht).
  - intros Hno. rewrite (generator_runLines chunks lines partial Hl Hp Ht).
    unfold runLines. destruct (processLines lines) as [es r]; simpl in *.
    rewrite Hno; reflexivity.
Qed.






Lemma hel_lo_then_terminator_witness :
  exists r1 r2,
    generator helloStream = ([Yield r1; Yield r2], ReturnedOnDone) /\
    candidateTexts r1 = [JString (js "Hel")] /\
    candidateTexts r2 = [JString (js "lo")].
Proof.
  apply (hel_lo_then_terminator helloStream
           [dataLine helPayload; []; dataLine loPayload; []; js "data: [DONE]"]
           [[]] [] helPayload loPayload (js "data: [DONE]")).
  - vm_compute; reflexivity.
  - apply linesNewlineFree_forallb; vm_compute; reflexivity.
  - intros [].
  - vm_compute; reflexivity.
  - vm_compute; reflexivity.
  - do 4 eexists. vm_compute. repeat split; reflexivity.
  - do 4 eexists. vm_compute. repeat split; reflexivity.
Defined.

Lemma malformed_line_is_skipped_witness :
  generator glitchStream
    = ([Yield helResponse; ConsoleError SyntaxError; Yield loResponse],
       ReturnedOnDone) /\
  yields (fst (generator glitchStream)) = [helResponse; loResponse].
Proof.
  apply (malformed_line_is_skipped glitchStream
           [dataLine helPayload;
            dataLine (jsq "{'choices':[{'index':0,'del");
            dataLine loPayload; js "data: [DONE]"]
           [dataLine loPayload] [] helPayload
           (jsq "{'choices':[{'index':0,'del") loPayload (js "data: [DONE]")).
  - vm_compute; reflexivity.
  - apply linesNewlineFree_forallb; vm_compute; reflexivity.
  - intros [].
  - vm_compute; reflexivity.
  - vm_compute; reflexivity.
  - vm_compute; reflexivity.
  - vm_compute; reflexivity.
  - vm_compute; reflexivity.
  - vm_compute; discriminate.
Defined.

Lemma partial_line_is_held_back_witness :
  generator truncatedStream = ([Yield helResponse], ReaderDone).
Proof.
  apply (partial_line_is_held_back
           {| decoder := TextDecoder.init; buffer := [] |} []
           truncatedStream [dataLine helPayload] (dataLine loPayload)).
  - vm_compute; reflexivity.
  - apply linesNewlineFree_forallb; vm_compute; reflexivity.
  - apply newlineFree_forallb; vm_compute; reflexivity.
  - vm_compute; reflexivity.
Defined.


(** * Further properties of the code *)

(** ** The constructor *)

Lemma orString_provided (a : option jsstring) (b : jsstring) :
  provided a -> orString a b = match a with Some s => s | None => b end.
Proof. intros [c [s ->]]; reflexivity. Qed.

Lemma orString_not_provided (a : option jsstring) (b : jsstring) :
  ~ provided a -> orString a b = b.
Proof.
  intros H. destruct a as [[|c s]|]; try reflexivity.
  exfalso; apply H; exists c, s; reflexivity.
Qed.

Lemma orString_nonempty (a : option jsstring) (b : jsstring) :
  b <> [] -> orString a b <> [].
Proof. intros H. destruct a as [[|c s]|]; simpl; [exact H | discriminate | exact H]. Qed.

(** X1. The constructor throws, and then the error that asks for
    OPENAI_API_KEY, exactly when neither its argument nor the environment
    gives a key that is not empty; a generator it returns has a key and a
    base URL that are not empty. *)
Theorem constructor_needs_a_key (env : ProcessEnv)
  (apiKeyArg baseUrlArg : option jsstring) :
  (constructor env apiKeyArg baseUrlArg = Throw (Error missingKeyMessage) <->
   ~ provided apiKeyArg /\ ~ provided (OPENAI_API_KEY env)) /\
  (forall g, constructor env apiKeyArg baseUrlArg = Normal g ->
             apiKey g <> [] /\ baseUrl g <> []) /\
  (forall e, constructor env apiKeyArg baseUrlArg = Throw e ->
             e = Error missingKeyMessage).
Proof.
  unfold constructor. split; [|split].
  - split.
    + intros H. destruct apiKeyArg as [[|c s]|]; simpl in H; try discriminate;
        (split; [intros [? [? ?]]; discriminate|]);
        destruct (OPENAI_API_KEY env) as [[|c s]|]; simpl in H; try discriminate;
        intros [? [? ?]]; discriminate.
    + intros [Ha He]. rewrite (orString_not_provided _ _ Ha).
      rewrite (orString_not_provided _ _ He). reflexivity.
  - intros g.
    destruct (orString apiKeyArg (orString (OPENAI_API_KEY env) [])) eqn:E;
      [discriminate|].
    intros H; inversion H; subst; simpl. split; [discriminate|].
    apply orString_nonempty, orString_nonempty. discriminate.
  - intros e.
    destruct (orString apiKeyArg (orString (OPENAI_API_KEY env) [])); [|discriminate].
    intros H; inversion H; reflexivity.
Qed.

(** X2. For the key and for the base URL alike, an argument that is
    not empty wins over the environment, the environment is used when the
    argument is absent or empty, and the base URL falls back to the
    public endpoint; an empty string as argument is the same as no
    argument. *)
Theorem constructor_precedence (env : ProcessEnv)
  (apiKeyArg baseUrlArg : option jsstring) (g : OpenAIContentGenerator) :
  constructor env apiKeyArg baseUrlArg = Normal g ->
  (forall k, apiKeyArg = Some k -> k <> [] -> apiKey g = k) /\
  (~ provided apiKeyArg -> OPENAI_API_KEY env = Some (apiKey g)) /\
  (forall u, baseUrlArg = Some u -> u <> [] -> baseUrl g = u) /\
  (~ provided baseUrlArg ->
   forall u, OPENAI_BASE_URL env = Some u -> u <> [] -> baseUrl g = u) /\
  (~ provided baseUrlArg -> ~ provided (OPENAI_BASE_URL env) ->
   baseUrl g = js "https://api.openai.com/v1") /\
  constructor env (Some []) baseUrlArg = constructor env None baseUrlArg /\
  constructor env apiKeyArg (Some []) = constructor env apiKeyArg None.
Proof.
  unfold constructor.
  destruct (orString apiKeyArg (orString (OPENAI_API_KEY env) [])) as [|c s] eqn:E;
    [discriminate|].
  intros H; inversion H; subst; clear H; simpl.
  repeat split.
  - intros k -> Hk. destruct k; [contradiction|]. simpl in E. congruence.
  - intros Hn. rewrite (orString_not_provided _ _ Hn) in E.
    destruct (OPENAI_API_KEY env) as [[|c' s']|]; simpl in E; congruence.
  - intros u -> Hu. destruct u; [contradiction|]. reflexivity.
  - intros Hn u Hu Hne. rewrite (orString_not_provided _ _ Hn), Hu.
    destruct u; [contradiction|]. reflexivity.
  - intros Hn He. rewrite (orString_not_provided _ _ Hn),
      (orString_not_provided _ _ He). reflexivity.
Qed.

Lemma constructor_precedence_witness :
  apiKey {| apiKey := js "sk-arg"; baseUrl := js "http://localhost:8080/v1" |}
  = js "sk-arg".
Proof.
  apply (constructor_precedence
           {| OPENAI_API_KEY := Some (js "sk-env");
              OPENAI_BASE_URL := Some (js "http://localhost:8080/v1") |}
           (Some (js "sk-arg")) (Some [])
           {| apiKey := js "sk-arg"; baseUrl := js "http://localhost:8080/v1" |}
           eq_refl).
  - reflexivity.
  - discriminate.
Defined.

(** ** Requests that are never sent *)



Lemma mapM_Forall2 {A B : Type} (f : A -> completion B) (l : list A)
  (ms : list B) :
  mapM f l = Normal ms <-> Forall2 (fun a b => f a = Normal b) l ms.
Proof.
  revert ms; induction l as [|a l IH]; intros ms; simpl.
  - split.
    + intros H; inversion H; constructor.
    + intros H; inversion H; reflexivity.
  - split.
    + destruct (f a) as [b|e] eqn:Ea; simpl; [|discriminate].
      destruct (mapM f l) as [bs|e] eqn:El; simpl; [|discriminate].
      intros H; inversion H; subst. constructor; [exact Ea|].
      apply IH; reflexivity.
    + intros H; inversion H as [|? b ? bs Ha Hl]; subst.
      rewrite Ha; simpl. apply IH in Hl. rewrite Hl; reflexivity.
Qed.

Lemma toOpenAIPartObject_Normal (p : PartObject) (o : ContentPartObject) :
  toOpenAIPartObject p = Normal o <->
  exists v, textKey p = Some v /\ o = {| typeValue := js "text"; textValue := v |}.
Proof.
  unfold toOpenAIPartObject. destruct (textKey p) as [v|]; split.
  - intros H; inversion H; eauto.
  - intros [w [Hw ->]]; inversion Hw; reflexivity.
  - discriminate.
  - intros [w [Hw _]]; discriminate.
Qed.

Lemma mapM_toOpenAIPartObject (l : list PartObject) :
  Forall (fun p => textKey p <> None) l ->
  exists ps,
    mapM toOpenAIPartObject l = Normal ps /\
    (forall p rest, l = p :: rest ->
       exists o rest', ps = o :: rest' /\ typeValue o = js "text"
                       /\ textKey p = Some (textValue o)).
Proof.
  induction 1 as [|p l Hp _ [ps [IH _]]]; simpl.
  - exists []; split; [reflexivity | intros; discriminate].
  - unfold toOpenAIPartObject at 1.
    destruct (textKey p) as [v|] eqn:Ev; [|contradiction].
    simpl. rewrite IH; simpl. eexists; split; [reflexivity|].
    intros p' rest H; inversion H; subst.
    eexists; eexists; split; [reflexivity|]. split; [reflexivity | exact Ev].
Qed.

(** The translation on objects does what the translation on [Part] and
    [Content] does, on the turns those express. *)
Lemma toOpenAIMessageObject_contentObject (c : Content) :
  match toOpenAIChatCompletionMessage c with
  | Normal m =>
      exists m', messageObject m = Some m' /\
                 toOpenAIMessageObject (contentObject c) = Normal m'
  | Throw e => toOpenAIMessageObject (contentObject c) = Throw e
  end.
Proof.
  unfold toOpenAIMessageObject, toOpenAIChatCompletionMessage, contentObject.
  cbn [roleKey partsKey].
  destruct (toOpenAIRole (role c)) as [r|e]; [|reflexivity]. simpl.
  assert (H : forall l,
             mapM toOpenAIPartObject (List.map partObject l)
             = match mapM toOpenAIPart l with
               | Normal ps =>
                   Normal (List.map (fun o => {| typeValue := type o;
                                                 textValue := Some (part_text o) |}) ps)
               | Throw e => Throw e
               end).
  { induction l as [|p l IH]; [reflexivity|]. simpl.
    unfold toOpenAIPartObject at 1, toOpenAIPart at 1, partObject at 1.
    cbn [textKey]. destruct (text p) as [t|]; [|reflexivity]. simpl.
    rewrite IH. destruct (mapM toOpenAIPart l); reflexivity. }
  destruct (parts c) as [l|]; simpl; [|reflexivity].
  rewrite H. destruct (mapM toOpenAIPart l) as [[|o ps]|e]; simpl; try reflexivity.
  destruct (jsstring_eqb (type o) (js "text")); [|reflexivity].
  eexists; split; reflexivity.
Qed.

(** X3. The translation of a turn succeeds exactly when its role is
    [user] or [model] and it has at least one part and every part has the
    key [text]; the message then has the mapped role, and its content is
    what the first part holds under [text], as it is: a string, or
    [undefined] when the key holds [undefined]. *)
Theorem translation_succeeds_iff (c : ContentObject) (m : MessageObject) :
  toOpenAIMessageObject c = Normal m <->
  exists first rest,
    partsKey c = Some (first :: rest) /\
    Forall (fun p => textKey p <> None) (first :: rest) /\
    textKey first = Some (contentValue m) /\
    ((roleKey c = Some (js "user") /\ roleValue m = user) \/
     (roleKey c = Some (js "model") /\ roleValue m = assistant)).
Proof.
  split.
  - unfold toOpenAIMessageObject.
    destruct (toOpenAIRole (roleKey c)) as [r|e] eqn:Hr; [|discriminate].
    apply toOpenAIRole_Normal in Hr. simpl.
    destruct (partsKey c) as [l|]; simpl; [|discriminate].
    destruct (mapM toOpenAIPartObject l) as [ps|e] eqn:Hm; simpl; [|discriminate].
    apply mapM_Forall2 in Hm.
    destruct Hm as [|p o l' ps' Hp Hrest]; [discriminate|].
    apply toOpenAIPartObject_Normal in Hp. destruct Hp as [v [Hv ->]]. simpl.
    intros H; inversion H; subst; simpl.
    exists p, l'. split; [reflexivity|]. split; [|split; [exact Hv|]].
    + constructor; [rewrite Hv; discriminate|].
      clear -Hrest. induction Hrest as [|q o l ps Hq _ IH]; constructor; [|exact IH].
      apply toOpenAIPartObject_Normal in Hq. destruct Hq as [v [-> _]]. discriminate.
    + destruct Hr as [[-> ->] | [-> ->]]; auto.
  - intros [first [rest [Hp [Hall [Ht Hr]]]]].
    unfold toOpenAIMessageObject. rewrite Hp.
    assert (Hrole : toOpenAIRole (roleKey c) = Normal (roleValue m))
      by (destruct Hr as [[-> ->] | [-> ->]]; reflexivity).
    rewrite Hrole. cbn [bind].
    destruct (mapM_toOpenAIPartObject _ Hall) as [ps [Hm Hfirst]].
    rewrite Hm. cbn [bind].
    destruct (Hfirst first rest eq_refl) as [o [rest' [-> [Hty Hkey]]]].
    rewrite Hty, jsstring_eqb_refl. rewrite Ht in Hkey. inversion Hkey.
    destruct m; reflexivity.
Qed.

(** The turn whose only part holds [text] with the value [undefined]. *)
Example undefined_text_is_translated :
  toOpenAIMessageObject
    {| roleKey := Some (js "user");
       partsKey := Some [ {| textKey := Some None; inlineDataKey := None;
                             functionCallKey := None;
                             functionResponseKey := None |} ] |}
  = Normal {| roleValue := user; contentValue := None |}.
Proof. reflexivity. Qed.

(** ** The calls of fetchAPI *)






(** ** Replies that are JSON *)

Lemma generateContent_ok (env : Env) (request : GenerateContentParameters)
  (msgs : list OpenAIChatCompletionMessageParam) :
  mapM toOpenAIChatCompletionMessage (contents request) = Normal msgs ->
  ok (fetchAPI env {| model := modelName env; messages := msgs; stream := false |})
    = true ->
  generateContent env request
  = (v <- JSON.parse
            (responseText
               (fetchAPI env {| model := modelName env; messages := msgs;
                                stream := false |})) ;;
     readChoice (js "message") v).
Proof.
  intros Hm Hok. unfold generateContent. rewrite Hm; simpl. rewrite Hok. reflexivity.
Qed.

Lemma deltaResponse_readChoice (data : jsstring) :
  deltaResponse data = (v <- JSON.parse data ;; readChoice (js "delta") v).
Proof. reflexivity. Qed.

Lemma readChoice_lacksField (field : jsstring) (v : JsVal) :
  lacksField field v -> exists property, readChoice field v = Throw (TypeError property).
Proof.
  unfold readChoice.
  intros [w Hw | props H | props choice others H Hc | props cp others H Hf]; simpl.
  - destruct w; try discriminate Hw; eexists; reflexivity.
  - destruct H as [-> | [-> | ->]]; eexists; reflexivity.
  - rewrite H; simpl. destruct choice; try discriminate Hc; eexists; reflexivity.
  - rewrite H; simpl. destruct Hf as [-> | ->]; simpl.
    + eexists; reflexivity.
    + destruct (lookup (js "index") cp); eexists; reflexivity.
Qed.

Lemma readChoice_first_choice (field : jsstring) (props cp dp : list (jsstring * JsVal))
  (others : list JsVal) :
  lookup (js "choices") props = Some (JArray (JObject cp :: others)) ->
  lookup field cp = Some (JObject dp) ->
  readChoice field (JObject props)
  = Normal (responseLiteral (orUndefined (lookup (js "index") cp))
              (orUndefined (lookup (js "content") dp))
              (orUndefined (lookup (js "finish_reason") cp))).
Proof.
  intros H Hf. unfold readChoice; simpl. rewrite H; simpl. rewrite Hf; reflexivity.
Qed.

Lemma deltaResponse_first_choice (data : jsstring)
  (props cp dp : list (jsstring * JsVal)) (others : list JsVal) :
  JSON.parse data = Normal (JObject props) ->
  lookup (js "choices") props = Some (JArray (JObject cp :: others)) ->
  lookup (js "delta") cp = Some (JObject dp) ->
  deltaResponse data
  = Normal (responseLiteral (orUndefined (lookup (js "index") cp))
              (orUndefined (lookup (js "content") dp))
              (orUndefined (lookup (js "finish_reason") cp))).
Proof.
  intros Hp Hc Hd. rewrite deltaResponse_readChoice, Hp; simpl.
  eapply readChoice_first_choice; eassumption.
Qed.

(** X6. In the single-shot path nothing is swallowed: after an OK reply
    whose text is not JSON, [generateContent] throws the SyntaxError of
    [JSON.parse]; after one that is JSON but holds no message to read (no
    object, no first choice, no [message] in it) it throws the runtime's
    TypeError.  No response is returned in either case. *)
Theorem single_shot_reply_must_hold_a_message (env : Env)
  (request : GenerateContentParameters)
  (msgs : list OpenAIChatCompletionMessageParam) :
  let response :=
    fetchAPI env {| model := modelName env; messages := msgs; stream := false |} in
  mapM toOpenAIChatCompletionMessage (contents request) = Normal msgs ->
  ok response = true ->
  (forall e, JSON.parse (responseText response) = Throw e ->
             generateContent env request = Throw SyntaxError) /\
  (forall v, JSON.parse (responseText response) = Normal v ->
             lacksField (js "message") v ->
             exists property,
               generateContent env request = Throw (TypeError property)).
Proof.
  intros response Hm Hok. rewrite (generateContent_ok env request msgs Hm Hok).
  fold response. split.
  - intros e He. unfold JSON.parse in *.
    destruct (JSON.value _ _) as [[v r]|]; [|reflexivity].
    destruct (JSON.skipSpace r); [discriminate | reflexivity].
  - intros v Hv Hl. rewrite Hv; simpl. apply readChoice_lacksField; exact Hl.
Qed.

Lemma single_shot_reply_must_hold_a_message_witness :
  exists property,
    generateContent emptyChoices helloRequest = Throw (TypeError property).
Proof.
  apply (single_shot_reply_must_hold_a_message emptyChoices helloRequest
           [ {| msg_role := user; content := ContentString (js "hello") |} ]
           eq_refl eq_refl)
    with (v := JObject [(js "id", JString (js "chatcmpl-1"));
                        (js "choices", JArray [])]).
  - vm_compute; reflexivity.
  - apply FieldNoChoices. right; right; reflexivity.
Defined.

(** X7. Of a reply only the first choice is read, and of it only
    [index], [finish_reason] and the content of its [message] (single
    shot) or [delta] (stream), whatever else the reply and its other
    choices hold: the candidate holds [index] and [finish_reason] as they
    are, [undefined] for one that is absent, and its text is
    [content || '']: the content when it is truthy, the empty string
    when it is absent, null or another falsy value. *)
Theorem only_the_first_choice_is_read (data : jsstring)
  (props cp dp : list (jsstring * JsVal)) (others : list JsVal) :
  JSON.parse data = Normal (JObject props) ->
  lookup (js "choices") props = Some (JArray (JObject cp :: others)) ->
  let content := orUndefined (lookup (js "content") dp) in
  let expected :=
    responseLiteral (orUndefined (lookup (js "index") cp)) content
      (orUndefined (lookup (js "finish_reason") cp)) in
  (lookup (js "delta") cp = Some (JObject dp) ->
   deltaResponse data = Normal expected) /\
  (lookup (js "message") cp = Some (JObject dp) ->
   forall env request msgs,
     mapM toOpenAIChatCompletionMessage (contents request) = Normal msgs ->
     ok (fetchAPI env {| model := modelName env; messages := msgs;
                         stream := false |}) = true ->
     responseText (fetchAPI env {| model := modelName env; messages := msgs;
                                   stream := false |}) = data ->
     generateContent env request = Normal expected) /\
  List.map index (candidates expected) = [orUndefined (lookup (js "index") cp)] /\
  List.map finishReason (candidates expected)
    = [orUndefined (lookup (js "finish_reason") cp)] /\
  candidateTexts expected = [if truthy content then content else JString []].
Proof.
  intros Hp Hc content expected. split; [|split].
  - intros Hd. eapply deltaResponse_first_choice; eassumption.
  - intros Hmsg env request msgs Hm Hok Ht.
    rewrite (generateContent_ok env request msgs Hm Hok), Ht, Hp; simpl.
    eapply readChoice_first_choice; eassumption.
  - repeat split; reflexivity.
Qed.

Lemma only_the_first_choice_is_read_witness :
  deltaResponse
    (jsq "{'id':'x','choices':[{'index':3,'delta':{'role':'assistant','content':'A'},'finish_reason':'length'},{'index':4,'delta':{'content':'B'}}],'usage':null}")
  = Normal (responseLiteral (JNumber false 3 0) (JString (js "A"))
              (JString (js "length"))).
Proof.
  apply (only_the_first_choice_is_read
           (jsq "{'id':'x','choices':[{'index':3,'delta':{'role':'assistant','content':'A'},'finish_reason':'length'},{'index':4,'delta':{'content':'B'}}],'usage':null}")
           [ (js "id", JString (js "x"));
             (js "choices",
              JArray [ JObject [ (js "index", JNumber false 3 0);
                                 (js "delta",
                                  JObject [ (js "role", JString (js "assistant"));
                                            (js "content", JString (js "A")) ]);
                                 (js "finish_reason", JString (js "length")) ];
                       JObject [ (js "index", JNumber false 4 0);
                                 (js "delta", JObject [ (js "content", JString (js "B")) ]) ] ]);
             (js "usage", JNull) ]
           [ (js "index", JNumber false 3 0);
             (js "delta",
              JObject [ (js "role", JString (js "assistant"));
                        (js "content", JString (js "A")) ]);
             (js "finish_reason", JString (js "length")) ]
           [ (js "role", JString (js "assistant"));
             (js "content", JString (js "A")) ]
           [ JObject [ (js "index", JNumber false 4 0);
                       (js "delta", JObject [ (js "content", JString (js "B")) ]) ] ]).
  - vm_compute; reflexivity.
  - reflexivity.
  - reflexivity.
Defined.

(** X8. A delta that holds no content, or a content that is null or the
    empty string (the delta that only names the role, the last delta of a
    stream), is not skipped: its line yields a response whose text is the
    empty string. *)
Theorem delta_without_content_yields_empty_text (data : jsstring)
  (props cp dp : list (jsstring * JsVal)) (others : list JsVal) :
  JSON.parse data = Normal (JObject props) ->
  lookup (js "choices") props = Some (JArray (JObject cp :: others)) ->
  lookup (js "delta") cp = Some (JObject dp) ->
  lookup (js "content") dp = None \/
  lookup (js "content") dp = Some JNull \/
  lookup (js "content") dp = Some (JString []) ->
  exists r,
    processLine (dataLine data) = Emitted (Yield r) /\
    candidateTexts r = [JString []].
Proof.
  intros Hp Hc Hd Hcontent.
  eexists. split.
  - apply processLine_yield.
    eapply deltaResponse_first_choice; eassumption.
  - unfold candidateTexts; simpl.
    destruct Hcontent as [-> | [-> | ->]]; reflexivity.
Qed.

Lemma delta_without_content_yields_empty_text_witness :
  exists r,
    processLine (dataLine (jsq "{'choices':[{'index':0,'delta':{'role':'assistant'},'finish_reason':null}]}"))
      = Emitted (Yield r) /\
    candidateTexts r = [JString []].
Proof.
  apply (delta_without_content_yields_empty_text
           (jsq "{'choices':[{'index':0,'delta':{'role':'assistant'},'finish_reason':null}]}")
           [ (js "choices",
              JArray [ JObject [ (js "index", JNumber false 0 0);
                                 (js "delta", JObject [ (js "role", JString (js "assistant")) ]);
                                 (js "finish_reason", JNull) ] ]) ]
           [ (js "index", JNumber false 0 0);
             (js "delta", JObject [ (js "role", JString (js "assistant")) ]);
             (js "finish_reason", JNull) ]
           [ (js "role", JString (js "assistant")) ] []).
  - vm_compute; reflexivity.
  - reflexivity.
  - reflexivity.
  - left; reflexivity.
Defined.

(** ** The shape of a response *)

Lemma responseLiteral_oneCandidate (idx txt fin : JsVal) :
  oneCandidate (responseLiteral idx txt fin).
Proof.
  exists idx, (orElse txt (JString [])), fin. split; [reflexivity|].
  unfold orElse. destruct (truthy txt) eqn:E; auto.
Qed.

Lemma readChoice_oneCandidate (field : jsstring) (v : JsVal)
  (r : GenerateContentResponse) :
  readChoice field v = Normal r -> oneCandidate r.
Proof.
  unfold readChoice.
  destruct (getProp v (js "choices")) as [choices|]; simpl; [|discriminate].
  destruct (getIndex0 choices) as [choice|]; simpl; [|discriminate].
  destruct (getProp choice field) as [inner|]; simpl; [|discriminate].
  destruct (getProp choice (js "index")) as [idx|]; simpl; [|discriminate].
  destruct (getProp inner (js "content")) as [txt|]; simpl; [|discriminate].
  destruct (getProp choice (js "finish_reason")) as [fin|]; simpl; [|discriminate].
  intros H; inversion H; subst. apply responseLiteral_oneCandidate.
Qed.

Lemma processLines_yield_inv (lines : list jsstring) (r : GenerateContentResponse) :
  In (Yield r) (fst (processLines lines)) ->
  exists data, deltaResponse data = Normal r.
Proof.
  induction lines as [|line lines IH]; simpl; [tauto|].
  destruct (processLine line) as [|e|] eqn:E; simpl; [exact IH | | tauto].
  destruct (processLines lines) as [es ret]; simpl in *.
  intros [H | H]; [|exact (IH H)]. subst e.
  unfold processLine in E. destruct (startsWith line (js "data: ")); [|discriminate].
  destruct (jsstring_eqb (trim (substring line 6)) (js "[DONE]")); [discriminate|].
  destruct (deltaResponse (substring line 6)) as [r'|e'] eqn:Ed; [|discriminate].
  inversion E; subst. eauto.
Qed.

Lemma generatorLoop_yield_inv (st : GeneratorState) (chunks : list (list byte))
  (r : GenerateContentResponse) :
  In (Yield r) (fst (generatorLoop st chunks)) ->
  exists data, deltaResponse data = Normal r.
Proof.
  revert st; induction chunks as [|c chunks IH]; intros st; [simpl; tauto|].
  rewrite generatorLoop_cons, onChunk_eq; simpl.
  destruct (snd (processLines _)) eqn:E; simpl.
  - apply processLines_yield_inv.
  - rewrite in_app_iff. intros [H | H].
    + exact (processLines_yield_inv _ _ H).
    + exact (IH _ H).
Qed.

(** X9. Every response the adapter hands out, returned by
    [generateContent] or yielded by the generator of
    [generateContentStream], has the same shape: no block reason, one
    candidate with the role [model] and one part, no safety ratings; and
    the text of the part is never [undefined], [null] or another falsy
    value, but a truthy value or the empty string. *)
Theorem responses_hold_one_candidate (env : Env)
  (request : GenerateContentParameters) (r : GenerateContentResponse) :
  (generateContent env request = Normal r -> oneCandidate r) /\
  (forall events ending,
      generateContentStream env request = Normal (events, ending) ->
      In (Yield r) events -> oneCandidate r).
Proof.
  split.
  - unfold generateContent.
    destruct (mapM toOpenAIChatCompletionMessage (contents request)) as [msgs|];
      simpl; [|discriminate].
    destruct (negb (ok _)); [discriminate|].
    destruct (JSON.parse _) as [v|]; simpl; [|discriminate].
    apply (readChoice_oneCandidate (js "message")).
  - intros events ending. unfold generateContentStream.
    destruct (mapM toOpenAIChatCompletionMessage (contents request)) as [msgs|];
      simpl; [|discriminate].
    destruct (ok _); [|discriminate]. destruct (body _) as [chunks|]; [|discriminate].
    intros H Hin. inversion H as [Hg]. clear H.
    assert (Hin' : In (Yield r) (fst (generator chunks))) by (rewrite Hg; exact Hin).
    destruct (generatorLoop_yield_inv _ _ _ Hin') as [data Hd].
    rewrite deltaResponse_readChoice in Hd.
    destruct (JSON.parse data) as [v|]; simpl in Hd; [|discriminate].
    exact (readChoice_oneCandidate _ _ _ Hd).
Qed.

(** X10. [generateContentStream] returns a generator only after an OK
    reply that has a body, and it is the generator over the chunks of
    that body; an OK reply without a body is reported like a failed
    status, by the API error with the OK status in its message. *)
Theorem stream_needs_a_body (env : Env) (request : GenerateContentParameters)
  (msgs : list OpenAIChatCompletionMessageParam) :
  let response :=
    fetchAPI env {| model := modelName env; messages := msgs; stream := true |} in
  mapM toOpenAIChatCompletionMessage (contents request) = Normal msgs ->
  (body response = None ->
   generateContentStream env request = Throw (apiError response)) /\
  (forall g, generateContentStream env request = Normal g ->
             ok response = true /\
             exists chunks, body response = Some chunks /\ g = generator chunks).
Proof.
  intros response Hm. unfold generateContentStream. rewrite Hm; simpl.
  fold response. split.
  - intros ->. destruct (ok response); reflexivity.
  - intros g. destruct (ok response); [|discriminate].
    destruct (body response) as [chunks|]; [|discriminate].
    intros H; inversion H. eauto.
Qed.

Lemma stream_needs_a_body_witness :
  generateContentStream echoHello helloRequest
  = Throw (apiError
             (fetchAPI echoHello
                {| model := [];
                   messages := [ {| msg_role := user;
                                    content := ContentString (js "hello") |} ];
                   stream := true |})).
Proof.
  apply (stream_needs_a_body echoHello helloRequest
           [ {| msg_role := user; content := ContentString (js "hello") |} ]
           eq_refl).
  reflexivity.
Defined.

(** ** Lines that are not data *)

(** X11. Only the lines that start with [data: ] (with the space) count:
    two streams whose data lines are the same, in the same order, make
    the generator do the same, whatever comments, event names, blank
    lines or unfinished last lines they hold and however they are
    chunked. *)
Theorem only_data_lines_count (chunks chunks' : list (list byte))
  (lines lines' : list jsstring) (partial partial' : jsstring) :
  streamText chunks = joinLines lines ++ partial ->
  Forall newlineFree lines -> newlineFree partial ->
  streamText chunks' = joinLines lines' ++ partial' ->
  Forall newlineFree lines' -> newlineFree partial' ->
  filter isDataLine lines = filter isDataLine lines' ->
  generator chunks = generator chunks'.
Proof.
  intros Ht Hl Hp Ht' Hl' Hp' Hf.
  rewrite (generator_runLines chunks lines partial Hl Hp Ht).
  rewrite (generator_runLines chunks' lines' partial' Hl' Hp' Ht').
  unfold runLines.
  rewrite (processLines_filter lines), (processLines_filter lines'), Hf.
  reflexivity.
Qed.

Lemma only_data_lines_count_witness : generator noisyStream = generator helloStream.
Proof.
  apply (only_data_lines_count noisyStream helloStream
           [ js ": connected"; js "event: delta"; dataLine helPayload; [];
             jsq "data:{'choices':[{'index':0,'delta':{'content':'??'}}]}";
             js "event: delta"; dataLine loPayload; []; js "data: [DONE]" ]
           [ dataLine helPayload; []; dataLine loPayload; []; js "data: [DONE]"; [] ]
           [] []).
  - vm_compute; reflexivity.
  - apply linesNewlineFree_forallb; vm_compute; reflexivity.
  - intros [].
  - vm_compute; reflexivity.
  - apply linesNewlineFree_forallb; vm_compute; reflexivity.
  - intros [].
  - vm_compute; reflexivity.
Defined.

(** ** The terminator line *)

Lemma trimStart_allWhiteSpace (ws s : jsstring) :
  allWhiteSpace ws -> trimStart (ws ++ s) = trimStart s.
Proof.
  induction 1 as [|c ws Hc _ IH]; simpl; [reflexivity|].
  rewrite Hc; exact IH.
Qed.

Lemma allWhiteSpace_rev (ws : jsstring) : allWhiteSpace ws -> allWhiteSpace (rev ws).
Proof. unfold allWhiteSpace. apply Forall_rev. Qed.

Lemma trim_decomp (s : jsstring) :
  exists ws1 ws2,
    s = ws1 ++ trim s ++ ws2 /\ allWhiteSpace ws1 /\ allWhiteSpace ws2.
Proof.
  destruct (trimStart_decomp s) as [ws1 [Hs H1]].
  destruct (trimStart_decomp (rev (trimStart s))) as [ws' [Hr H2]].
  exists ws1, (rev ws'). repeat split; [|exact H1|apply allWhiteSpace_rev; exact H2].
  unfold trim, trimEnd. rewrite <- rev_app_distr, <- Hr, rev_involutive. exact Hs.
Qed.

Lemma trim_padded (ws1 ws2 : jsstring) :
  allWhiteSpace ws1 -> allWhiteSpace ws2 ->
  trim (ws1 ++ js "[DONE]" ++ ws2) = js "[DONE]".
Proof.
  intros H1 H2. unfold trim, trimEnd.
  rewrite (trimStart_allWhiteSpace ws1 _ H1).
  change (trimStart (js "[DONE]" ++ ws2)) with (js "[DONE]" ++ ws2).
  rewrite rev_app_distr, (trimStart_allWhiteSpace _ _ (allWhiteSpace_rev ws2 H2)).
  reflexivity.
Qed.

Lemma startsWith_decomp (s p : jsstring) :
  startsWith s p = true -> s = p ++ skipn (List.length p) s.
Proof.
  revert s; induction p as [|x p IH]; intros s; simpl; [reflexivity|].
  destruct s as [|y s]; simpl; [discriminate|].
  rewrite andb_true_iff, N.eqb_eq. intros [-> H]. rewrite <- (IH s H). reflexivity.
Qed.

(** X12. The lines the generator returns on are exactly the lines made
    of [data: ], then white space, then [[DONE]], then white space (a
    carriage return before the newline for one): nothing else ends the
    stream early. *)
Theorem terminator_lines (line : jsstring) :
  processLine line = Returned <->
  exists ws1 ws2,
    allWhiteSpace ws1 /\ allWhiteSpace ws2 /\
    line = js "data: " ++ ws1 ++ js "[DONE]" ++ ws2.
Proof.
  split.
  - unfold processLine.
    destruct (startsWith line (js "data: ")) eqn:Es; [|discriminate].
    destruct (jsstring_eqb (trim (substring line 6)) (js "[DONE]")) eqn:Et.
    + intros _. apply jsstring_eqb_eq in Et.
      destruct (trim_decomp (substring line 6)) as [ws1 [ws2 [Hd [H1 H2]]]].
      exists ws1, ws2. split; [exact H1|]. split; [exact H2|].
      rewrite (startsWith_decomp _ _ Es).
      change (skipn (List.length (js "data: ")) line) with (substring line 6).
      rewrite Hd at 1. rewrite Et. reflexivity.
    + destruct (deltaResponse (substring line 6)); discriminate.
  - intros [ws1 [ws2 [H1 [H2 ->]]]].
    change (js "data: " ++ ws1 ++ js "[DONE]" ++ ws2)
      with (dataLine (ws1 ++ js "[DONE]" ++ ws2)).
    rewrite processLine_dataLine, (trim_padded ws1 ws2 H1 H2). reflexivity.
Qed.

(** ** What was yielded stays *)

(** X13. The events after some chunks are the beginning of the events
    after more chunks: what the generator yielded is never taken back or
    reordered by what arrives later; and once it returned on the
    terminator, chunks that arrive later change nothing. *)
Theorem later_chunks_only_add (st : GeneratorState)
  (chunks more : list (list byte)) :
  (exists es,
      fst (generatorLoop st (chunks ++ more))
      = fst (generatorLoop st chunks) ++ es) /\
  (snd (generatorLoop st chunks) = ReturnedOnDone ->
   generatorLoop st (chunks ++ more) = generatorLoop st chunks).
Proof.
  revert st; induction chunks as [|c chunks IH]; intros st.
  - split; [eexists; reflexivity | discriminate].
  - change ((c :: chunks) ++ more) with (c :: (chunks ++ more)).
    rewrite !generatorLoop_cons.
    destruct (snd (snd (onChunk st c))); simpl.
    + split; [exists []; rewrite app_nil_r; reflexivity | reflexivity].
    + destruct (IH (fst (onChunk st c))) as [[es Hes] Hret]. split.
      * exists es. rewrite Hes, app_assoc. reflexivity.
      * intros H. rewrite (Hret H). reflexivity.
Qed.

(** ** Carriage returns *)

Lemma skipSpace_CR (s : jsstring) :
  JSON.skipSpace (s ++ CR)
  = match JSON.skipSpace s with
    | [] => []
    | c :: r => c :: (r ++ CR)
    end.
Proof.
  induction s as [|c s IH]; simpl; [reflexivity|].
  destruct (JSON.isSpace c); [exact IH | reflexivity].
Qed.

Lemma hex4_CR (a b c : N) : JSON.hex4 a b c 0x0D = None.
Proof.
  unfold JSON.hex4.
  destruct (JSON.hexDigit a), (JSON.hexDigit b), (JSON.hexDigit c); reflexivity.
Qed.

Lemma stringBody_CR (s acc : jsstring) :
  JSON.stringBody (s ++ CR) acc = restCR (JSON.stringBody s acc).
Proof.
  remember (List.length s) as n eqn:Hn.
  assert (Hle : (List.length s <= n)%nat) by lia. clear Hn.
  revert s acc Hle. induction n as [|n IH]; intros s acc Hle.
  - destruct s; [reflexivity | simpl in Hle; lia].
  - destruct s as [|c s1]; [reflexivity|]. simpl in Hle. simpl.
    destruct (c =? 0x22); [reflexivity|].
    destruct (c =? 0x5C).
    + destruct s1 as [|e s2]; [reflexivity|]. simpl.
      destruct (e =? 0x75).
      * destruct s2 as [|h1 [|h2 [|h3 [|h4 s3]]]]; simpl; try reflexivity.
        -- rewrite hex4_CR; reflexivity.
        -- destruct (JSON.hex4 h1 h2 h3 h4); [|reflexivity].
           apply IH; simpl in *; lia.
      * destruct (JSON.escape e); [|reflexivity].
        apply IH; simpl in *; lia.
    + destruct (c <? 0x20); [reflexivity|].
      apply IH; lia.
Qed.

Lemma spanDigits_CR (s : jsstring) :
  JSON.spanDigits (s ++ CR)
  = (fst (JSON.spanDigits s), snd (JSON.spanDigits s) ++ CR).
Proof.
  induction s as [|c s IH]; simpl; [reflexivity|].
  destruct (JSON.isDigit c); [|reflexivity].
  rewrite IH. destruct (JSON.spanDigits s); reflexivity.
Qed.

Lemma intPart_CR (s : jsstring) :
  JSON.intPart (s ++ CR) = restCR (JSON.intPart s).
Proof.
  destruct s as [|c s]; [reflexivity|].
  unfold JSON.intPart. cbn [app].
  destruct (c =? 0x30); [reflexivity|].
  destruct (JSON.isDigit c); [|reflexivity].
  change (c :: (s ++ CR)) with ((c :: s) ++ CR).
  rewrite spanDigits_CR. destruct (JSON.spanDigits (c :: s)); reflexivity.
Qed.

Lemma fracPart_CR (s : jsstring) :
  JSON.fracPart (s ++ CR) = restCR (JSON.fracPart s).
Proof.
  destruct s as [|c s]; [reflexivity|].
  unfold JSON.fracPart. cbn [app].
  destruct (c =? 0x2E); [|reflexivity].
  rewrite spanDigits_CR. destruct (JSON.spanDigits s) as [[|d ds] r]; reflexivity.
Qed.

Lemma signedDigits_CR (s : jsstring) :
  JSON.signedDigits (s ++ CR) = restCR (JSON.signedDigits s).
Proof.
  destruct s as [|c s]; [reflexivity|].
  unfold JSON.signedDigits. cbn [app].
  destruct (c =? 0x2D); [|destruct (c =? 0x2B)].
  - rewrite spanDigits_CR. destruct (JSON.spanDigits s) as [[|d ds] r]; reflexivity.
  - rewrite spanDigits_CR. destruct (JSON.spanDigits s) as [[|d ds] r]; reflexivity.
  - change (c :: (s ++ CR)) with ((c :: s) ++ CR).
    rewrite spanDigits_CR.
    destruct (JSON.spanDigits (c :: s)) as [[|d ds] r]; reflexivity.
Qed.

Lemma expPart_CR (s : jsstring) :
  JSON.expPart (s ++ CR) = restCR (JSON.expPart s).
Proof.
  destruct s as [|c s]; [reflexivity|].
  unfold JSON.expPart. cbn [app].
  destruct ((c =? 0x65) || (c =? 0x45)); [apply signedDigits_CR | reflexivity].
Qed.

Lemma number_CR (s : jsstring) :
  JSON.number (s ++ CR) = restCR (JSON.number s).
Proof.
  unfold JSON.number.
  assert (H : forall negative s1,
             match JSON.intPart (s1 ++ CR) with
             | None => None
             | Some (ds, s2) =>
                 match JSON.fracPart s2 with
                 | None => None
                 | Some (fs, s3) =>
                     match JSON.expPart s3 with
                     | None => None
                     | Some (e, s4) =>
                         Some (JNumber negative (JSON.digitsValue (ds ++ fs))
                                 (e - Z.of_nat (List.length fs))%Z, s4)
                     end
                 end
             end
             = restCR
                 match JSON.intPart s1 with
                 | None => None
                 | Some (ds, s2) =>
                     match JSON.fracPart s2 with
                     | None => None
                     | Some (fs, s3) =>
                         match JSON.expPart s3 with
                         | None => None
                         | Some (e, s4) =>
                             Some (JNumber negative (JSON.digitsValue (ds ++ fs))
                                     (e - Z.of_nat (List.length fs))%Z, s4)
                         end
                     end
                 end).
  { intros negative s1. rewrite intPart_CR.
    destruct (JSON.intPart s1) as [[ds s2]|]; [|reflexivity]. simpl.
    rewrite fracPart_CR.
    destruct (JSON.fracPart s2) as [[fs s3]|]; [|reflexivity]. simpl.
    rewrite expPart_CR.
    destruct (JSON.expPart s3) as [[e s4]|]; reflexivity. }
  destruct s as [|c s].
  - reflexivity.
  - cbn [app]. destruct (c =? 0x2D); [apply H|].
    change (c :: (s ++ CR)) with ((c :: s) ++ CR). apply H.
Qed.

Lemma startsWith_CR (s p : jsstring) :
  ~ In 0x0D p -> startsWith (s ++ CR) p = startsWith s p.
Proof.
  revert s; induction p as [|x p IH]; intros s Hp.
  - destruct s; reflexivity.
  - destruct s as [|y s].
    + unfold CR; simpl.
      destruct (N.eqb_spec x 0x0D) as [->|_]; [|reflexivity].
      exfalso; apply Hp; left; reflexivity.
    + cbn [app startsWith].
      rewrite IH by (intros H; apply Hp; right; exact H). reflexivity.
Qed.

Lemma skipn_CR (s p : jsstring) :
  startsWith s p = true ->
  skipn (List.length p) (s ++ CR) = skipn (List.length p) s ++ CR.
Proof.
  revert s; induction p as [|x p IH]; intros s; [reflexivity|].
  destruct s as [|y s]; cbn [app startsWith]; [discriminate|].
  rewrite andb_true_iff. intros [_ H]. simpl. exact (IH s H).
Qed.

Lemma value_CR (fuel : nat) :
  (forall s, JSON.value fuel (s ++ CR) = restCR (JSON.value fuel s)) /\
  (forall s acc,
      JSON.elements fuel (s ++ CR) acc = restCR (JSON.elements fuel s acc)) /\
  (forall s acc,
      JSON.members fuel (s ++ CR) acc = restCR (JSON.members fuel s acc)).
Proof.
  induction fuel as [|fuel [IHv [IHe IHm]]]; [repeat split; reflexivity|].
  split; [|split].
  - intros s. cbn [JSON.value]. rewrite skipSpace_CR.
    destruct (JSON.skipSpace s) as [|c s']; [reflexivity|].
    destruct (c =? 0x7B).
    { rewrite skipSpace_CR, IHm.
      destruct (JSON.skipSpace s') as [|c2 s2]; [reflexivity|].
      destruct (c2 =? 0x7D); reflexivity. }
    destruct (c =? 0x5B).
    { rewrite skipSpace_CR, IHe.
      destruct (JSON.skipSpace s') as [|c2 s2]; [reflexivity|].
      destruct (c2 =? 0x5D); reflexivity. }
    destruct (c =? 0x22).
    { rewrite stringBody_CR.
      destruct (JSON.stringBody s' []) as [[str r]|]; reflexivity. }
    change (c :: s' ++ CR) with ((c :: s') ++ CR).
    rewrite !startsWith_CR
      by (vm_compute; intuition discriminate).
    destruct (startsWith (c :: s') (js "true")) eqn:Et.
    { rewrite (skipn_CR _ (js "true") Et
                : skipn 4 ((c :: s') ++ CR) = skipn 4 (c :: s') ++ CR).
      reflexivity. }
    destruct (startsWith (c :: s') (js "false")) eqn:Ef.
    { rewrite (skipn_CR _ (js "false") Ef
                : skipn 5 ((c :: s') ++ CR) = skipn 5 (c :: s') ++ CR).
      reflexivity. }
    destruct (startsWith (c :: s') (js "null")) eqn:En.
    { rewrite (skipn_CR _ (js "null") En
                : skipn 4 ((c :: s') ++ CR) = skipn 4 (c :: s') ++ CR).
      reflexivity. }
    apply number_CR.
  - intros s acc. cbn [JSON.elements]. rewrite IHv.
    destruct (JSON.value fuel s) as [[v r]|]; [|reflexivity]. cbn [restCR].
    rewrite skipSpace_CR.
    destruct (JSON.skipSpace r) as [|c r']; [reflexivity|].
    destruct (c =? 0x2C); [apply IHe|].
    destruct (c =? 0x5D); reflexivity.
  - intros s acc. cbn [JSON.members]. rewrite skipSpace_CR.
    destruct (JSON.skipSpace s) as [|q s1]; [reflexivity|].
    destruct (q =? 0x22); [|reflexivity].
    rewrite stringBody_CR.
    destruct (JSON.stringBody s1 []) as [[k s2]|]; [|reflexivity]. cbn [restCR].
    rewrite skipSpace_CR.
    destruct (JSON.skipSpace s2) as [|colon s3]; [reflexivity|].
    destruct (colon =? 0x3A); [|reflexivity].
    rewrite IHv.
    destruct (JSON.value fuel s3) as [[v r]|]; [|reflexivity]. cbn [restCR].
    rewrite skipSpace_CR.
    destruct (JSON.skipSpace r) as [|c r']; [reflexivity|].
    destruct (c =? 0x2C); [apply IHm|].
    destruct (c =? 0x7D); reflexivity.
Qed.

Lemma parse_CR (text : jsstring) : JSON.parse (text ++ CR) = JSON.parse text.
Proof.
  unfold JSON.parse.
  rewrite (proj1 (value_CR _)).
  rewrite (proj1 (value_fuel (2 * List.length (text ++ CR) + 2))
             (2 * List.length text + 2)%nat text)
    by (rewrite ?length_app; simpl; lia).
  destruct (JSON.value (2 * List.length text + 2) text) as [[v r]|]; [|reflexivity].
  cbn [restCR]. rewrite skipSpace_CR.
  destruct (JSON.skipSpace r); reflexivity.
Qed.

Lemma trimStart_app (s w : jsstring) :
  trimStart (s ++ w)
  = match trimStart s with
    | [] => trimStart w
    | c :: t => c :: t ++ w
    end.
Proof.
  induction s as [|c s IH]; simpl; [destruct (trimStart w); reflexivity|].
  destruct (isWhiteSpace c); [exact IH | reflexivity].
Qed.

Lemma trim_CR (s : jsstring) : trim (s ++ CR) = trim s.
Proof.
  unfold trim, trimEnd. rewrite trimStart_app.
  destruct (trimStart s) as [|c t]; [reflexivity|].
  change (c :: t ++ CR) with ((c :: t) ++ CR).
  rewrite rev_app_distr. reflexivity.
Qed.

Lemma processLine_CR (line : jsstring) :
  processLine (line ++ CR) = processLine line.
Proof.
  unfold processLine.
  rewrite startsWith_CR by (vm_compute; intuition discriminate).
  destruct (startsWith line (js "data: ")) eqn:Es; [|reflexivity].
  unfold substring.
  rewrite (skipn_CR line (js "data: ") Es : skipn 6 (line ++ CR) = skipn 6 line ++ CR).
  rewrite trim_CR.
  destruct (jsstring_eqb (trim (skipn 6 line)) (js "[DONE]")); [reflexivity|].
  unfold deltaResponse. rewrite parse_CR. reflexivity.
Qed.

Lemma processLines_CR (lines : list jsstring) :
  processLines (List.map (fun l => l ++ CR) lines) = processLines lines.
Proof.
  induction lines as [|l lines IH]; [reflexivity|]. simpl.
  rewrite processLine_CR, IH. reflexivity.
Qed.

Lemma newlineFree_CR (lines : list jsstring) :
  Forall newlineFree lines ->
  Forall newlineFree (List.map (fun l => l ++ CR) lines).
Proof.
  induction 1 as [|l lines Hl _ IH]; simpl; constructor; [|exact IH].
  unfold newlineFree in *. rewrite in_app_iff.
  intros [H | [H | []]]; [exact (Hl H) | discriminate H].
Qed.

(** X14. A carriage return before the newline is invisible: a line and
    the same line followed by a carriage return are processed alike (the
    prefix test, [trim] and [JSON.parse] all let it pass), so a stream
    with CRLF line ends makes the generator do what the same stream with
    LF line ends does. *)
Theorem carriage_returns_are_invisible (chunks chunks' : list (list byte))
  (lines : list jsstring) (partial partial' : jsstring) :
  streamText chunks = joinLines lines ++ partial ->
  Forall newlineFree lines -> newlineFree partial ->
  streamText chunks' = joinLines (List.map (fun l => l ++ CR) lines) ++ partial' ->
  newlineFree partial' ->
  generator chunks' = generator chunks /\
  (forall line, processLine (line ++ CR) = processLine line).
Proof.
  intros Ht Hl Hp Ht' Hp'. split; [|exact processLine_CR].
  rewrite (generator_runLines chunks lines partial Hl Hp Ht).
  rewrite (generator_runLines chunks' _ partial' (newlineFree_CR lines Hl) Hp' Ht').
  unfold runLines. rewrite processLines_CR. reflexivity.
Qed.

Lemma carriage_returns_are_invisible_witness :
  generator crlfStream = generator helloStream.
Proof.
  apply (carriage_returns_are_invisible helloStream crlfStream
           [ dataLine helPayload; []; dataLine loPayload; []; js "data: [DONE]"; [] ]
           [] []).
  - vm_compute; reflexivity.
  - apply linesNewlineFree_forallb; vm_compute; reflexivity.
  - intros [].
  - vm_compute; reflexivity.
  - intros [].
Defined.

(** ** The body of a request *)

Lemma hexDigit_hexChar (n : N) :
  n < 16 -> JSON.hexDigit (Stringify.hexChar n) = Some n.
Proof.
  intros H. unfold Stringify.hexChar, JSON.hexDigit, JSON.isDigit.
  destruct (N.ltb_spec n 10) as [Hd | Hd].
  - assert (H1 : (0x30 <=? 0x30 + n) = true) by (apply N.leb_le; lia).
    assert (H2 : (0x30 + n <=? 0x39) = true) by (apply N.leb_le; lia).
    rewrite H1, H2. cbn [andb]. f_equal. lia.
  - assert (H1 : (0x61 + (n - 10) <=? 0x39) = false) by (apply N.leb_gt; lia).
    assert (H2 : (0x61 + (n - 10) <=? 0x46) = false) by (apply N.leb_gt; lia).
    assert (H3 : (0x61 <=? 0x61 + (n - 10)) = true) by (apply N.leb_le; lia).
    assert (H4 : (0x61 + (n - 10) <=? 0x66) = true) by (apply N.leb_le; lia).
    rewrite H1, H2, H3, H4, !andb_false_r. cbn [andb]. f_equal. lia.
Qed.

Lemma hex4_unicodeEscape (c : N) :
  c < 65536 ->
  JSON.hex4 (Stringify.hexChar ((c / 4096) mod 16))
    (Stringify.hexChar ((c / 256) mod 16))
    (Stringify.hexChar ((c / 16) mod 16)) (Stringify.hexChar (c mod 16))
  = Some c.
Proof.
  intros H. unfold JSON.hex4.
  rewrite !hexDigit_hexChar by (apply N.mod_lt; discriminate).
  f_equal.
  pose proof (N.div_mod c 16 ltac:(discriminate)) as H0.
  pose proof (N.div_mod (c / 16) 16 ltac:(discriminate)) as H1.
  pose proof (N.div_mod (c / 256) 16 ltac:(discriminate)) as H2.
  rewrite N.Div0.div_div in H1. change (16 * 16) with 256 in H1.
  rewrite N.Div0.div_div in H2. change (256 * 16) with 4096 in H2.
  assert (H3 : c / 4096 < 16).
  { apply N.Div0.div_lt_upper_bound. change (4096 * 16) with 65536. exact H. }
  rewrite (N.mod_small (c / 4096) 16 H3).
  lia.
Qed.

Lemma stringBody_literal (c : N) (rest acc : jsstring) :
  (c =? 0x22) = false -> (c =? 0x5C) = false -> (c <? 0x20) = false ->
  JSON.stringBody (c :: rest) acc = JSON.stringBody rest (c :: acc).
Proof. intros H1 H2 H3. cbn [JSON.stringBody]. rewrite H1, H2, H3. reflexivity. Qed.

Lemma stringBody_unicodeEscape (c : N) (rest acc : jsstring) :
  c < 65536 ->
  JSON.stringBody (Stringify.unicodeEscape c ++ rest) acc
  = JSON.stringBody rest (c :: acc).
Proof.
  intros H.
  change (JSON.stringBody (Stringify.unicodeEscape c ++ rest) acc)
    with (match JSON.hex4 (Stringify.hexChar ((c / 4096) mod 16))
                  (Stringify.hexChar ((c / 256) mod 16))
                  (Stringify.hexChar ((c / 16) mod 16))
                  (Stringify.hexChar (c mod 16)) with
          | Some u => JSON.stringBody rest (u :: acc)
          | None => None
          end).
  rewrite (hex4_unicodeEscape c H). reflexivity.
Qed.

Lemma stringBody_quoteUnit (c : N) (rest acc : jsstring) :
  JSON.stringBody (Stringify.quoteUnit c ++ rest) acc
  = JSON.stringBody rest (c :: acc).
Proof.
  unfold Stringify.quoteUnit.
  destruct (N.eqb_spec c 0x08) as [->|H1]; [reflexivity|].
  destruct (N.eqb_spec c 0x09) as [->|H2]; [reflexivity|].
  destruct (N.eqb_spec c 0x0A) as [->|H3]; [reflexivity|].
  destruct (N.eqb_spec c 0x0C) as [->|H4]; [reflexivity|].
  destruct (N.eqb_spec c 0x0D) as [->|H5]; [reflexivity|].
  destruct (N.eqb_spec c 0x22) as [->|H6]; [reflexivity|].
  destruct (N.eqb_spec c 0x5C) as [->|H7]; [reflexivity|].
  destruct (N.ltb_spec c 0x20) as [H8|H8].
  - apply stringBody_unicodeEscape. lia.
  - apply stringBody_literal.
    + apply N.eqb_neq; exact H6.
    + apply N.eqb_neq; exact H7.
    + apply N.ltb_ge; exact H8.
Qed.

Lemma surrogate_literal (c : N) (rest acc : jsstring) :
  0xD800 <= c ->
  JSON.stringBody (c :: rest) acc = JSON.stringBody rest (c :: acc).
Proof.
  intros H. apply stringBody_literal.
  - apply N.eqb_neq; lia.
  - apply N.eqb_neq; lia.
  - apply N.ltb_ge; lia.
Qed.

(** A quoted string reads back as the string, whatever it holds. *)
Lemma stringBody_quoteBody (s rest acc : jsstring) :
  JSON.stringBody (Stringify.quoteBody s ++ 0x22 :: rest) acc
  = Some (rev acc ++ s, rest).
Proof.
  remember (List.length s) as n eqn:Hn.
  assert (Hle : (List.length s <= n)%nat) by lia. clear Hn.
  revert s acc Hle. induction n as [|n IH]; intros s acc Hle.
  - destruct s; [|simpl in Hle; lia]. simpl. rewrite app_nil_r. reflexivity.
  - destruct s as [|c s1].
    { simpl. rewrite app_nil_r. reflexivity. }
    simpl in Hle. cbn [Stringify.quoteBody].
    assert (Hstep : forall acc', JSON.stringBody (Stringify.quoteBody s1 ++ 0x22 :: rest) (c :: acc')
                                 = Some (rev acc' ++ c :: s1, rest)).
    { intros acc'. rewrite IH by lia. simpl. rewrite <- app_assoc. reflexivity. }
    destruct (Stringify.isLeadingSurrogate c) eqn:El.
    + unfold Stringify.isLeadingSurrogate in El.
      apply andb_true_iff in El. destruct El as [El1 El2].
      apply N.leb_le in El1, El2.
      destruct s1 as [|d s2].
      * rewrite stringBody_unicodeEscape by lia. reflexivity.
      * destruct (Stringify.isTrailingSurrogate d) eqn:Et.
        -- unfold Stringify.isTrailingSurrogate in Et.
           apply andb_true_iff in Et. destruct Et as [Et1 _]. apply N.leb_le in Et1.
           cbn [app]. rewrite surrogate_literal by lia.
           rewrite surrogate_literal by lia.
           rewrite IH by (simpl in Hle; lia). simpl.
           rewrite <- !app_assoc. reflexivity.
        -- rewrite <- app_assoc, stringBody_unicodeEscape by lia. apply Hstep.
    + destruct (Stringify.isTrailingSurrogate c) eqn:Et.
      * unfold Stringify.isTrailingSurrogate in Et.
        apply andb_true_iff in Et. destruct Et as [_ Et2]. apply N.leb_le in Et2.
        rewrite <- app_assoc, stringBody_unicodeEscape by lia. apply Hstep.
      * rewrite <- app_assoc, stringBody_quoteUnit. apply Hstep.
Qed.

Lemma value_quote (fuel : nat) (s rest : jsstring) :
  JSON.value (S fuel) (Stringify.quote s ++ rest) = Some (JString s, rest).
Proof.
  unfold Stringify.quote. cbn [app JSON.value JSON.skipSpace].
  change (JSON.isSpace 0x22) with false. cbv iota.
  change (0x22 =? 0x7B) with false. change (0x22 =? 0x5B) with false.
  change (0x22 =? 0x22) with true. cbv iota.
  rewrite <- app_assoc. cbn [app]. rewrite stringBody_quoteBody. reflexivity.
Qed.

Lemma members_step (fuel : nat) (key r : jsstring) (acc : list (jsstring * JsVal)) :
  JSON.members (S fuel) (Stringify.quote key ++ 0x3A :: r) acc
  = match JSON.value fuel r with
    | None => None
    | Some (v, r1) =>
        match JSON.skipSpace r1 with
        | c :: r' =>
            if c =? 0x2C then JSON.members fuel r' (setProp key v acc)
            else if c =? 0x7D then Some (JObject (setProp key v acc), r')
            else None
        | [] => None
        end
    end.
Proof.
  unfold Stringify.quote. rewrite <- app_comm_cons, <- app_assoc.
  cbn [app JSON.members JSON.skipSpace].
  change (JSON.isSpace 0x22) with false. cbv iota.
  change (0x22 =? 0x22) with true. cbv iota.
  rewrite stringBody_quoteBody. cbn [rev app JSON.skipSpace].
  change (JSON.isSpace 0x3A) with false. cbv iota.
  change (0x3A =? 0x3A) with true. cbv iota. reflexivity.
Qed.

Lemma value_object_open (fuel : nat) (key r : jsstring) :
  JSON.value (S fuel) (0x7B :: Stringify.quote key ++ r)
  = JSON.members fuel (Stringify.quote key ++ r) [].
Proof. reflexivity. Qed.

Lemma value_array_open (fuel : nat) (r : jsstring) :
  JSON.value (S fuel) (0x5B :: 0x7B :: r) = JSON.elements fuel (0x7B :: r) [].
Proof. reflexivity. Qed.

Lemma value_array_empty (fuel : nat) (rest : jsstring) :
  JSON.value (S fuel) (0x5B :: 0x5D :: rest) = Some (JArray [], rest).
Proof. reflexivity. Qed.

Lemma value_message (fuel : nat) (m : MessageObject) (rest : jsstring) :
  JSON.value (S (S (S (S fuel)))) (Stringify.message m ++ rest)
  = Some (messageValue m, rest).
Proof.
  unfold Stringify.message, messageValue, Stringify.object, Stringify.member.
  destruct (contentValue m) as [t|]; cbn [Stringify.commas].
  - rewrite <- !app_comm_cons, <- !app_assoc. cbn [app].
    rewrite <- !app_assoc. cbn [app].
    rewrite value_object_open, members_step, value_quote.
    cbn [JSON.skipSpace]. change (JSON.isSpace 0x2C) with false. cbv iota.
    change (0x2C =? 0x2C) with true. cbv iota.
    rewrite members_step, value_quote.
    cbn [JSON.skipSpace]. change (JSON.isSpace 0x7D) with false. cbv iota.
    change (0x7D =? 0x2C) with false. change (0x7D =? 0x7D) with true. cbv iota.
    reflexivity.
  - rewrite <- !app_comm_cons, <- !app_assoc. cbn [app].
    rewrite value_object_open, members_step, value_quote.
    cbn [JSON.skipSpace]. change (JSON.isSpace 0x7D) with false. cbv iota.
    change (0x7D =? 0x2C) with false. change (0x7D =? 0x7D) with true. cbv iota.
    reflexivity.
Qed.

Lemma elements_step (fuel : nat) (s : jsstring) (acc : list JsVal) :
  JSON.elements (S fuel) s acc
  = match JSON.value fuel s with
    | None => None
    | Some (v, r) =>
        match JSON.skipSpace r with
        | c :: r' =>
            if c =? 0x2C then JSON.elements fuel r' (v :: acc)
            else if c =? 0x5D then Some (JArray (rev (v :: acc)), r')
            else None
        | [] => None
        end
    end.
Proof. reflexivity. Qed.

Lemma elements_messages (msgs : list MessageObject) (fuel : nat)
  (rest : jsstring) (acc : list JsVal) :
  msgs <> [] ->
  JSON.elements (List.length msgs + 4 + fuel)
    (Stringify.commas (List.map Stringify.message msgs) ++ 0x5D :: rest) acc
  = Some (JArray (rev acc ++ List.map messageValue msgs), rest).
Proof.
  revert acc. induction msgs as [|m msgs IH]; intros acc Hne; [contradiction|].
  replace (List.length (m :: msgs) + 4 + fuel)%nat
    with (S (S (S (S (S (List.length msgs + fuel)))))) by (simpl; lia).
  rewrite elements_step.
  destruct msgs as [|m' msgs].
  - cbn [List.map Stringify.commas].
    rewrite value_message.
    cbn [JSON.skipSpace]. change (JSON.isSpace 0x5D) with false. cbv iota.
    change (0x5D =? 0x2C) with false. change (0x5D =? 0x5D) with true. cbv iota.
    reflexivity.
  - change (Stringify.commas (List.map Stringify.message (m :: m' :: msgs)))
      with (Stringify.message m
              ++ 0x2C :: Stringify.commas (List.map Stringify.message (m' :: msgs))).
    rewrite <- app_assoc. cbn [app].
    rewrite value_message.
    cbn [JSON.skipSpace]. change (JSON.isSpace 0x2C) with false. cbv iota.
    change (0x2C =? 0x2C) with true. cbv iota.
    replace (S (S (S (S (List.length (m' :: msgs) + fuel)))))
      with (List.length (m' :: msgs) + 4 + fuel)%nat by lia.
    rewrite IH by discriminate.
    cbn [List.map rev]. rewrite <- app_assoc. reflexivity.
Qed.

Lemma value_messages (msgs : list MessageObject) (fuel : nat) (rest : jsstring) :
  JSON.value (List.length msgs + 5 + fuel)
    (Stringify.array (List.map Stringify.message msgs) ++ rest)
  = Some (JArray (List.map messageValue msgs), rest).
Proof.
  unfold Stringify.array.
  rewrite <- app_comm_cons, <- app_assoc. cbn [app].
  replace (List.length msgs + 5 + fuel)%nat
    with (S (List.length msgs + 4 + fuel)) by lia.
  destruct msgs as [|m msgs].
  - apply value_array_empty.
  - assert (Hh : exists r,
               Stringify.commas (List.map Stringify.message (m :: msgs)) ++ 0x5D :: rest
               = 0x7B :: r).
    { cbn [List.map Stringify.commas].
      destruct (List.map Stringify.message msgs); eexists; reflexivity. }
    destruct Hh as [r Hr].
    rewrite Hr, value_array_open, <- Hr.
    rewrite (elements_messages (m :: msgs) fuel rest []) by discriminate.
    reflexivity.
Qed.

Lemma value_requestBody (b : WireBody) (fuel : nat) (rest : jsstring) :
  JSON.value (List.length (wireMessages b) + 8 + fuel)
    (Stringify.requestBody b ++ rest)
  = Some (bodyValue b, rest).
Proof.
  unfold Stringify.requestBody, bodyValue, Stringify.object, Stringify.member.
  cbn [Stringify.commas].
  rewrite <- !app_comm_cons, <- !app_assoc. cbn [app].
  rewrite <- !app_assoc. cbn [app].
  replace (List.length (wireMessages b) + 8 + fuel)%nat
    with (S (S (S (List.length (wireMessages b) + 5 + fuel)))) by lia.
  rewrite value_object_open, members_step, value_quote.
  cbn [JSON.skipSpace]. change (JSON.isSpace 0x2C) with false. cbv iota.
  change (0x2C =? 0x2C) with true. cbv iota.
  rewrite members_step.
  rewrite <- ?app_assoc. cbn [app]. rewrite <- ?app_assoc. cbn [app].
  rewrite (value_messages (wireMessages b) fuel _).
  cbn [JSON.skipSpace]. change (JSON.isSpace 0x2C) with false. cbv iota.
  change (0x2C =? 0x2C) with true. cbv iota.
  replace (List.length (wireMessages b) + 5 + fuel)%nat
    with (S (S (List.length (wireMessages b) + 3 + fuel))) by lia.
  rewrite members_step.
  destruct (wireStream b); reflexivity.
Qed.

(** X15. The body [fetchAPI] hands to [fetch] is a JSON text that
    [JSON.parse] reads back as the body it was given: the model name, the
    messages in order, each with the wire name of its role and its
    content, whatever code units a content holds (quotes, backslashes,
    control characters, surrogates) and without the key [content] when
    the content is [undefined], and the stream flag; the request is a
    POST to [/chat/completions] under the base URL with the key as bearer
    credential. *)
Theorem request_body_round_trip (this : OpenAIContentGenerator) (b : WireBody) :
  JSON.parse (fetchBody (fetchCall this b)) = Normal (bodyValue b) /\
  url (fetchCall this b) = baseUrl this ++ js "/chat/completions" /\
  method (fetchCall this b) = js "POST" /\
  In (js "Authorization", js "Bearer " ++ apiKey this)
    (headers (fetchCall this b)).
Proof.
  split; [|split; [reflexivity|split; [reflexivity|right; left; reflexivity]]].
  unfold JSON.parse. cbn [fetchCall fetchBody].
  rewrite (proj1 (value_fuel (2 * List.length (Stringify.requestBody b) + 2))
             (List.length (wireMessages b) + 8
              + (2 * List.length (Stringify.requestBody b) + 2))%nat
             (Stringify.requestBody b)) by lia.
  rewrite <- (app_nil_r (Stringify.requestBody b)) at 2.
  rewrite (value_requestBody b _ []). reflexivity.
Qed.

(** What [awkwardBody] is sent as. *)
Example awkward_body_text :
  fetchBody (fetchCall {| apiKey := js "sk-1"; baseUrl := js "https://api.openai.com/v1" |}
               awkwardBody)
  = jsq "{'model':'gpt-4o','messages':[{'role':'user','content':'"
      ++ [0x5C; 0x22; 0x5C; 0x5C; 0x5C; 0x6E] ++ js "\ud800A" ++ [0xD83D; 0xDE00]
      ++ jsq "'},{'role':'assistant','content':''},{'role':'user'}],'stream':true}".
Proof. vm_compute; reflexivity. Qed.
